(** * Business acquisition analyzer: the calculation engine of
      [BusinessCalculator.tsx] and its deal evaluator.

    The TypeScript functions are embedded as Rocq functions over a model of
    JavaScript numbers.  A JavaScript number is an IEEE-754 double; here a
    finite number is an exact rational ([Qc]), so arithmetic is carried out
    without rounding error and without overflow, and the three special
    values (the two infinities and NaN) are kept because the program
    reaches them through unguarded divisions and through [parseInt] of a
    string without digits.

    The rationals are the doubles of the program where those are exact
    (integers up to [MAX_SAFE_INTEGER], their sums and differences) and an
    idealisation elsewhere: a quotient, a product with a decimal fraction or
    a power is the exact value, of which the program holds the nearest
    double.  The last bits of such a value are a matter for the binary64
    floats of [Binary64], over which the two computations of the debt
    service are compared.

    The sign of zero is not tracked: a zero divisor is read as [+0].  That
    is what a parsed digit string, a [Math.abs] and [x - 1] with [x = 1]
    give.  One divisor of the program can be [-0]: the total debt service
    of an asking price of 0 with a negative loan term, where, for positive
    earnings, the coverage ratio of the program is [-Infinity] and that of
    the model [+Infinity]. *)

From Stdlib Require Import ZArith QArith Qcanon Qround Qpower Lqa Lia.
From Stdlib Require Import Bool List String Ascii DecimalString DecimalPos NArith.
From Stdlib Require PrimFloat SpecFloat FloatOps.
Import ListNotations.

Open Scope Qc_scope.

(** ** JavaScript numbers *)

Module JS.

(** A number: a finite value, held exactly, or one of the three special
    values.  No finite value rounds and none overflows to an infinity. *)
Inductive number : Type :=
| Fin (q : Qc)
| PInf
| NInf
| NaN.

Definition ofZ (z : Z) : number := Fin (Q2Qc (inject_Z z)).
Definition ofNat (n : nat) : number := ofZ (Z.of_nat n).

(** A decimal literal such as [0.15] is [dec 15 100]. *)
Definition dec (n : Z) (d : positive) : number := Fin (Q2Qc (n # d)).

Definition isFinite (x : number) : bool :=
  match x with Fin _ => true | _ => false end.

Definition neg (x : number) : number :=
  match x with
  | Fin q => Fin (- q)
  | PInf => NInf
  | NInf => PInf
  | NaN => NaN
  end.

Definition add (x y : number) : number :=
  match x, y with
  | NaN, _ | _, NaN => NaN
  | Fin a, Fin b => Fin (a + b)
  | PInf, NInf | NInf, PInf => NaN
  | PInf, _ | _, PInf => PInf
  | NInf, _ | _, NInf => NInf
  end.

Definition sub (x y : number) : number := add x (neg y).

(** The infinity whose sign is that of [q]; NaN when [q] is zero. *)
Definition signedInf (q : Qc) (flip : bool) : number :=
  match q ?= 0 with
  | Eq => NaN
  | Gt => if flip then NInf else PInf
  | Lt => if flip then PInf else NInf
  end.

Definition mul (x y : number) : number :=
  match x, y with
  | NaN, _ | _, NaN => NaN
  | Fin a, Fin b => Fin (a * b)
  | Fin a, PInf | PInf, Fin a => signedInf a false
  | Fin a, NInf | NInf, Fin a => signedInf a true
  | PInf, PInf | NInf, NInf => PInf
  | PInf, NInf | NInf, PInf => NInf
  end.

(** Division; a zero divisor counts as [+0]. *)
Definition div (x y : number) : number :=
  match x, y with
  | NaN, _ | _, NaN => NaN
  | Fin a, Fin b =>
      match b ?= 0 with
      | Eq => signedInf a false
      | _ => Fin (a / b)
      end
  | Fin _, _ => Fin 0
  | PInf, Fin b => match b ?= 0 with Lt => NInf | _ => PInf end
  | NInf, Fin b => match b ?= 0 with Lt => PInf | _ => NInf end
  | _, _ => NaN
  end.

(** Comparisons: every comparison with NaN is false. *)
Definition lt (x y : number) : bool :=
  match x, y with
  | NaN, _ | _, NaN => false
  | Fin a, Fin b => match a ?= b with Lt => true | _ => false end
  | NInf, NInf | PInf, _ | _, NInf => false
  | _, _ => true
  end.

Definition le (x y : number) : bool :=
  match x, y with
  | NaN, _ | _, NaN => false
  | Fin a, Fin b => match a ?= b with Gt => false | _ => true end
  | NInf, _ | _, PInf => true
  | _, _ => false
  end.

Definition gt (x y : number) : bool := lt y x.
Definition ge (x y : number) : bool := le y x.

Module Math.

Definition abs (x : number) : number :=
  match x with
  | Fin q => Fin (match q ?= 0 with Lt => - q | _ => q end)
  | PInf | NInf => PInf
  | NaN => NaN
  end.

Definition min (x y : number) : number :=
  match x, y with
  | NaN, _ | _, NaN => NaN
  | _, _ => if le x y then x else y
  end.

Definition max (x y : number) : number :=
  match x, y with
  | NaN, _ | _, NaN => NaN
  | _, _ => if le x y then y else x
  end.

(** [Math.round]: the integer nearest to [x], ties towards +infinity, that
    is [floor (x + 1/2)]. *)
Definition round (x : number) : number :=
  match x with
  | Fin q => ofZ (Qfloor (q + Q2Qc (1 # 2)))
  | _ => x
  end.

(** The exponent of a power, when it is an integer. *)
Definition asInteger (q : Qc) : option Z :=
  match Qden q with
  | xH => Some (Qnum q)
  | _ => None
  end.

Definition powZ (a : Qc) (n : Z) : number :=
  match n with
  | Z0 => Fin 1
  | Zpos _ => Fin (Q2Qc (Qpower a n))
  | Zneg _ =>
      match a ?= 0 with
      | Eq => PInf
      | _ => Fin (Q2Qc (Qpower a n))
      end
  end.

(** [Math.pow] with an integer exponent.  Every exponent of the program is an
    array index or [parseInt (..) * 12], hence an integer or NaN; a finite
    exponent that is not an integer, and an infinite base or exponent, are
    outside what exact rationals can express and are not modelled: the
    function answers NaN there, and no theorem below relies on that.  The
    power is exact: it does not overflow to Infinity as the double of the
    program does from about 1.8e308 on. *)
Definition pow (x y : number) : number :=
  match y with
  | NaN => NaN
  | Fin e =>
      match asInteger e with
      | Some 0%Z => Fin 1
      | Some n => match x with Fin a => powZ a n | _ => NaN end
      | None => NaN
      end
  | _ => NaN
  end.

End Math.

End JS.

Import JS.

Declare Scope js_scope.
Delimit Scope js_scope with js.
Bind Scope js_scope with number.
Infix "+" := add : js_scope.
Infix "-" := sub : js_scope.
Infix "*" := mul : js_scope.
Infix "/" := div : js_scope.
Notation "- x" := (neg x) : js_scope.

(** ** Strings: [replace(/[^0-9]/g, '')], [parseInt], [toFixed] *)

Open Scope string_scope.

Definition isDigit (c : ascii) : bool :=
  let n := nat_of_ascii c in (48 <=? n)%nat && (n <=? 57)%nat.

(** [s.replace(/[^0-9]/g, '')]: the digits of [s], in order. *)
Fixpoint replaceNonDigits (s : string) : string :=
  match s with
  | EmptyString => EmptyString
  | String c r =>
      if isDigit c then String c (replaceNonDigits r) else replaceNonDigits r
  end.

(** The ASCII members of the white space that [parseInt] skips. *)
Definition isWhiteSpace (c : ascii) : bool :=
  let n := nat_of_ascii c in
  ((9 <=? n)%nat && (n <=? 13)%nat) || (n =? 32)%nat.

Fixpoint trimStart (s : string) : string :=
  match s with
  | String c r => if isWhiteSpace c then trimStart r else s
  | EmptyString => s
  end.

(** The value of [c] as a digit of the given radix (10 or 16). *)
Definition digitValue (radix : Z) (c : ascii) : option Z :=
  let n := Z.of_nat (nat_of_ascii c) in
  let v :=
    if (48 <=? n)%Z && (n <=? 57)%Z then Some (n - 48)%Z
    else if (97 <=? n)%Z && (n <=? 102)%Z then Some (n - 87)%Z
    else if (65 <=? n)%Z && (n <=? 70)%Z then Some (n - 55)%Z
    else None in
  match v with
  | Some d => if (d <? radix)%Z then Some d else None
  | None => None
  end.

(** Reads the longest prefix of digits; [acc] is [None] until a digit has
    been read. *)
Fixpoint readDigits (radix : Z) (s : string) (acc : option Z) : option Z :=
  match s with
  | EmptyString => acc
  | String c r =>
      match digitValue radix c with
      | Some d =>
          readDigits radix r
            (Some (match acc with Some a => a * radix + d | None => d end)%Z)
      | None => acc
      end
  end.

(** A result of [parseInt]: an integer, or [None] for NaN. *)
Definition integer : Type := option Z.

Definition num (i : integer) : number :=
  match i with
  | Some z => ofZ z
  | None => NaN
  end.

(** [Number.MAX_SAFE_INTEGER], 2^53 - 1: up to it in magnitude every integer
    is a double, and the integer that [parseInt] reads is the number the
    program holds. *)
Definition MAX_SAFE_INTEGER : Z := 9007199254740991.

(** [parseInt(s)] without a radix: leading white space (its ASCII members),
    an optional sign, an optional [0x] prefix that selects radix 16, then the
    longest prefix of digits; NaN when there is no digit.  The result is the
    integer the digits denote; the program holds the double nearest to it,
    which is another number above [MAX_SAFE_INTEGER] and Infinity from some
    309 digits on. *)
Definition parseInt (s : string) : integer :=
  let s := trimStart s in
  let '(sign, s) :=
    match s with
    | String "-" r => ((-1)%Z, r)
    | String "+" r => (1%Z, r)
    | _ => (1%Z, s)
    end in
  let '(radix, s) :=
    match s with
    | String "0" (String "x" r) | String "0" (String "X" r) => (16%Z, r)
    | _ => (10%Z, s)
    end in
  match readDigits radix s None with
  | Some v => Some (sign * v)%Z
  | None => None
  end.

(** Every character of the string is a decimal digit. *)
Fixpoint allDigits (s : string) : bool :=
  match s with
  | EmptyString => true
  | String c r => isDigit c && allDigits r
  end.

(** An integer inside a template literal. *)
Definition integerToString (i : integer) : string :=
  match i with
  | Some z => NilZero.string_of_int (Z.to_int z)
  | None => "NaN"
  end.

Fixpoint padStart (width : nat) (s : string) : string :=
  if (width <=? String.length s)%nat then s
  else match width with
       | O => s
       | S w => "0" ++ padStart w s
       end.

(** [x.toFixed(digits)]: [x] rounded to that many decimals, ties away from
    zero, in positional notation.  (JavaScript switches to exponent notation
    from 10^21 on; the model stays positional.) *)
Definition toFixed (x : number) (digits : nat) : string :=
  match x with
  | NaN => "NaN"
  | PInf => "Infinity"
  | NInf => "-Infinity"
  | Fin q =>
      let scale := (10 ^ Z.of_nat digits)%Z in
      let negative := match (q ?= 0)%Qc with Lt => true | _ => false end in
      let a := if negative then (- q)%Qc else q in
      let n := Qfloor (a * Q2Qc (inject_Z scale) + Q2Qc (1 # 2))%Qc in
      let whole := NilZero.string_of_int (Z.to_int (n / scale)) in
      let frac := NilZero.string_of_int (Z.to_int (n mod scale)) in
      (if negative then "-" else "")
        ++ whole
        ++ match digits with
           | O => ""
           | _ => "." ++ padStart digits frac
           end
  end.

(** ** The data of [BusinessCalculator.tsx] *)

Module FormValues.
Record t : Type := mk {
  askingPrice : string;
  revenue : string;
  ebitda : string;
  ownerSalary : string;
  recurringRevenue : string;
  topCustomerRevenue : string;
  yearsInBusiness : string;
  downPayment : string;
  sellerNote : string;
  interestRate : string;
  loanTerm : string;
  industry : string
}.
End FormValues.

Module CalculationResults.
Record t : Type := mk {
  ebitdaMultiple : number;
  revenueMultiple : number;
  priceToEarnings : number;
  workingCapitalRatio : number;
  debtServiceCoverageRatio : number;
  returnOnInvestment : number;
  paybackPeriod : number;
  riskScore : number;
  growthPotential : number;
  marketPositionScore : number;
  competitiveThreat : number;
  projectedCashFlows : list number;
  netPresentValue : number;
  internalRateOfReturn : number;
  totalDebtService : number;
  bankLoan : number;
  sellerNote : number;
  revenue : option string;
  recurringRevenue : option string;
  topCustomerRevenue : option string;
  yearsInBusiness : option string;
  industry : option string
}.
End CalculationResults.

Inductive Recommendation : Type :=
| StrongBuy
| Buy
| Neutral
| Caution
| Pass.

Module DealAnalysis.
Record t : Type := mk {
  recommendation : Recommendation;
  color : string;
  strengths : list string;
  weaknesses : list string;
  opportunities : list string;
  threats : list string
}.
End DealAnalysis.

Definition initialValues : FormValues.t := {|
  FormValues.askingPrice := "2,500,000";
  FormValues.revenue := "3,000,000";
  FormValues.ebitda := "450,000";
  FormValues.ownerSalary := "150,000";
  FormValues.recurringRevenue := "900,000";
  FormValues.topCustomerRevenue := "300,000";
  FormValues.yearsInBusiness := "15";
  FormValues.downPayment := "5";
  FormValues.sellerNote := "5";
  FormValues.interestRate := "10.5";
  FormValues.loanTerm := "10";
  FormValues.industry := "services"
|}.

(** ** The metrics engine *)

Section Engine.

Import FormValues.
Local Open Scope js_scope.

Definition calculateAnnualDebtService (principal rate years : number) : number :=
  let monthlyRate := rate / ofZ 1200 in
  let numberOfPayments := years * ofZ 12 in
  let monthlyPayment :=
    principal
    * (monthlyRate * Math.pow (ofZ 1 + monthlyRate) numberOfPayments)
    / (Math.pow (ofZ 1 + monthlyRate) numberOfPayments - ofZ 1) in
  monthlyPayment * ofZ 12.

Definition calculateRiskScore (values : FormValues.t) : number :=
  let score := ofZ 100 in
  let score :=
    if gt (num (parseInt (replaceNonDigits values.(revenue)))) (ofZ 2000000)
    then score - (num (parseInt (replaceNonDigits values.(revenue))) - ofZ 2000000)
                 * dec 15 10
    else score in
  let score :=
    if gt (num (parseInt (replaceNonDigits values.(ebitda)))
           / num (parseInt (replaceNonDigits values.(askingPrice))))
          (dec 3 10)
    then score - ofZ 10
    else score in
  let score :=
    if (values.(industry) =? "tech")%string then score + ofZ 10
    else if (values.(industry) =? "retail")%string then score + ofZ 5
    else if (values.(industry) =? "manufacturing")%string then score - ofZ 10
    else score in
  let score :=
    score - num (parseInt (replaceNonDigits values.(recurringRevenue))) * dec 5 10 in
  let score :=
    score - Math.min (num (parseInt (replaceNonDigits values.(askingPrice))) * ofZ 2)
                     (ofZ 20) in
  Math.max (ofZ 0) (Math.min (ofZ 100) score).

Definition calculateGrowthPotential (values : FormValues.t) : number :=
  let historicalWeight := dec 4 10 in
  let industryWeight := dec 3 10 in
  let marketPositionWeight := dec 3 10 in
  let marketScore :=
    if (values.(industry) =? "tech")%string then ofZ 10
    else if (values.(industry) =? "retail")%string then dec 75 10
    else if (values.(industry) =? "manufacturing")%string then ofZ 5
    else ofZ 0 in
  (num (parseInt (replaceNonDigits values.(recurringRevenue))) * historicalWeight)
  + (num (parseInt (replaceNonDigits values.(recurringRevenue))) * industryWeight)
  + (marketScore * marketPositionWeight).

Definition calculateMarketScore (values : FormValues.t) : number :=
  let score := ofZ 0 in
  let score :=
    if (values.(industry) =? "tech")%string then score + ofZ 40
    else if (values.(industry) =? "retail")%string then score + ofZ 30
    else if (values.(industry) =? "manufacturing")%string then score + ofZ 20
    else score in
  let score :=
    score + Math.min (num (parseInt (replaceNonDigits values.(recurringRevenue))) * ofZ 2)
                     (ofZ 30) in
  let score :=
    score - Math.min (num (parseInt (replaceNonDigits values.(askingPrice))) * ofZ 2)
                     (ofZ 20) in
  Math.max (ofZ 0) (Math.min (ofZ 100) score).

Definition calculateCompetitiveThreat (values : FormValues.t) : number :=
  let threat := ofZ 0 in
  let threat := threat + num (parseInt (replaceNonDigits values.(askingPrice))) * ofZ 5 in
  let threat :=
    if (values.(industry) =? "tech")%string then threat + ofZ 10
    else if (values.(industry) =? "retail")%string then threat + ofZ 20
    else if (values.(industry) =? "manufacturing")%string then threat + ofZ 30
    else threat in
  let threat :=
    threat + num (parseInt (replaceNonDigits values.(recurringRevenue))) * ofZ 2 in
  Math.min (ofZ 100) threat.

(** The declining growth rates of the projection. *)
Definition growthRates : list number :=
  [dec 15 100; dec 12 100; dec 10 100; dec 8 100; dec 6 100].

Definition projectedYears : nat := 5.

(** One turn of the loop [for (let year = 0; year < projectedYears; year++)]:
    the state is [currentEbitda] and the array [cashFlows]; an index outside
    [growthRates] reads [undefined], which arithmetic turns into NaN. *)
Definition projectYear (totalDebtService ownerSalary : number)
    (st : number * list number) (year : nat) : number * list number :=
  let '(currentEbitda, cashFlows) := st in
  if (0 <? year)%nat then
    let currentEbitda :=
      currentEbitda * (ofZ 1 + nth (year - 1)%nat growthRates NaN) in
    let freeCashFlow := currentEbitda - totalDebtService - ownerSalary in
    (currentEbitda, (cashFlows ++ [Math.round freeCashFlow])%list)
  else st.

Definition calculateProjectedCashFlows (values : FormValues.t) : list number :=
  let askingPrice := num (parseInt (replaceNonDigits values.(askingPrice))) in
  let downPaymentPercent := num (parseInt values.(downPayment)) / ofZ 100 in
  let sellerNotePercent := num (parseInt values.(sellerNote)) / ofZ 100 in
  let interestRate := num (parseInt values.(interestRate)) in
  let loanTerm := num (parseInt values.(loanTerm)) in
  let ebitda := num (parseInt (replaceNonDigits values.(ebitda))) in
  let ownerSalary := num (parseInt (replaceNonDigits values.(ownerSalary))) in
  let downPayment := askingPrice * downPaymentPercent in
  let cashFlows := [- downPayment] in
  let sellerNote := askingPrice * sellerNotePercent in
  let bankLoan := askingPrice - downPayment - sellerNote in
  let totalDebtService :=
    calculateAnnualDebtService (bankLoan + sellerNote) interestRate loanTerm in
  snd (fold_left (projectYear totalDebtService ownerSalary)
         (seq 0 projectedYears) (ebitda, cashFlows)).

(** [cashFlows.reduce((npv, cashFlow, year) => ..., 0)]: the fold carries the
    index of the entry along. *)
Definition calculateNPV (cashFlows : list number) (discountRate : number) : number :=
  fold_left
    (fun npv '(year, cashFlow) =>
       npv + cashFlow / Math.pow (ofZ 1 + discountRate) (ofNat year))
    (combine (seq 0 (List.length cashFlows)) cashFlows)
    (ofZ 0).

(** [cashFlows[0]] of an empty array is [undefined], NaN under [Math.abs]. *)
Definition calculateIRR (cashFlows : list number) : number :=
  let totalInvestment := Math.abs (nth 0 cashFlows NaN) in
  let averageReturn :=
    fold_left (fun sum cf => sum + cf) (tl cashFlows) (ofZ 0)
    / (ofNat (List.length cashFlows) - ofZ 1) in
  (averageReturn / totalInvestment) * ofZ 100.

Definition calculateMetrics (values : FormValues.t) : CalculationResults.t :=
  let askingPrice := num (parseInt (replaceNonDigits values.(askingPrice))) in
  let revenue := num (parseInt (replaceNonDigits values.(revenue))) in
  let ebitda := num (parseInt (replaceNonDigits values.(ebitda))) in
  let downPaymentPercent := num (parseInt values.(downPayment)) / ofZ 100 in
  let sellerNotePercent := num (parseInt values.(sellerNote)) / ofZ 100 in
  let interestRate := num (parseInt values.(interestRate)) in
  let loanTerm := num (parseInt values.(loanTerm)) in
  let downPayment := askingPrice * downPaymentPercent in
  let sellerNote := askingPrice * sellerNotePercent in
  let bankLoan := askingPrice - downPayment - sellerNote in
  let bankDebtService := calculateAnnualDebtService bankLoan interestRate loanTerm in
  let sellerDebtService := calculateAnnualDebtService sellerNote interestRate loanTerm in
  let totalDebtService := bankDebtService + sellerDebtService in
  let ebitdaMultiple := askingPrice / ebitda in
  let revenueMultiple := askingPrice / revenue in
  let priceToEarnings := askingPrice / (ebitda * dec 7 10) in
  let debtServiceCoverageRatio := ebitda / totalDebtService in
  let returnOnInvestment := (ebitda / askingPrice) * ofZ 100 in
  let paybackPeriod := askingPrice / ebitda in
  let riskScore := calculateRiskScore values in
  let growthPotential := calculateGrowthPotential values in
  let marketPositionScore := calculateMarketScore values in
  let competitiveThreat := calculateCompetitiveThreat values in
  let projectedCashFlows := calculateProjectedCashFlows values in
  let netPresentValue := calculateNPV projectedCashFlows (dec 15 100) in
  let internalRateOfReturn := calculateIRR projectedCashFlows in
  {| CalculationResults.ebitdaMultiple := ebitdaMultiple;
     CalculationResults.revenueMultiple := revenueMultiple;
     CalculationResults.priceToEarnings := priceToEarnings;
     CalculationResults.workingCapitalRatio := ofZ 0;
     CalculationResults.debtServiceCoverageRatio := debtServiceCoverageRatio;
     CalculationResults.returnOnInvestment := returnOnInvestment;
     CalculationResults.paybackPeriod := paybackPeriod;
     CalculationResults.riskScore := riskScore;
     CalculationResults.growthPotential := growthPotential;
     CalculationResults.marketPositionScore := marketPositionScore;
     CalculationResults.competitiveThreat := competitiveThreat;
     CalculationResults.projectedCashFlows := projectedCashFlows;
     CalculationResults.netPresentValue := netPresentValue;
     CalculationResults.internalRateOfReturn := internalRateOfReturn;
     CalculationResults.totalDebtService := totalDebtService;
     CalculationResults.bankLoan := bankLoan;
     CalculationResults.sellerNote := sellerNote;
     CalculationResults.revenue := Some values.(FormValues.revenue);
     CalculationResults.recurringRevenue := Some values.(FormValues.recurringRevenue);
     CalculationResults.topCustomerRevenue := Some values.(FormValues.topCustomerRevenue);
     CalculationResults.yearsInBusiness := Some values.(FormValues.yearsInBusiness);
     CalculationResults.industry := Some values.(FormValues.industry) |}.

End Engine.

(** ** The debt service in binary64

    The two computations of the total annual debt service, that of
    [calculateMetrics] and that of [calculateProjectedCashFlows], over the
    doubles of the program: every operation rounds to the nearest binary64
    float, as JavaScript arithmetic does. *)

Module Binary64.

Import PrimFloat.
Local Open Scope float_scope.

Section Engine.

(** [Math.pow]: ECMAScript leaves its precision to the implementation, so the
    function is a parameter of the computations. *)
Variable pow : float -> float -> float.

Definition calculateAnnualDebtService (principal rate years : float) : float :=
  let monthlyRate := rate / 1200 in
  let numberOfPayments := years * 12 in
  let monthlyPayment :=
    principal
    * (monthlyRate * pow (1 + monthlyRate) numberOfPayments)
    / (pow (1 + monthlyRate) numberOfPayments - 1) in
  monthlyPayment * 12.

(** [totalDebtService] of [calculateMetrics], from the parsed fields: the two
    loans amortized one by one. *)
Definition calculateMetrics_totalDebtService
    (askingPrice downPayment sellerNote interestRate loanTerm : float) : float :=
  let downPaymentPercent := downPayment / 100 in
  let sellerNotePercent := sellerNote / 100 in
  let downPayment := askingPrice * downPaymentPercent in
  let sellerNote := askingPrice * sellerNotePercent in
  let bankLoan := askingPrice - downPayment - sellerNote in
  let bankDebtService := calculateAnnualDebtService bankLoan interestRate loanTerm in
  let sellerDebtService := calculateAnnualDebtService sellerNote interestRate loanTerm in
  bankDebtService + sellerDebtService.

(** [totalDebtService] of [calculateProjectedCashFlows]: one call on the sum
    of the two principals. *)
Definition calculateProjectedCashFlows_totalDebtService
    (askingPrice downPayment sellerNote interestRate loanTerm : float) : float :=
  let downPaymentPercent := downPayment / 100 in
  let sellerNotePercent := sellerNote / 100 in
  let downPayment := askingPrice * downPaymentPercent in
  let sellerNote := askingPrice * sellerNotePercent in
  let bankLoan := askingPrice - downPayment - sellerNote in
  calculateAnnualDebtService (bankLoan + sellerNote) interestRate loanTerm.

End Engine.

(** A [Math.pow] that answers [g]. *)
Definition returns (g : float) : float -> float -> float := fun _ _ => g.

(** The [n] floats below [x], in increasing order, and the [n] floats above. *)
Fixpoint below (n : nat) (x : float) : list float :=
  match n with
  | O => []
  | S k => (below k (next_down x) ++ [next_down x])%list
  end.

Fixpoint above (n : nat) (x : float) : list float :=
  match n with
  | O => []
  | S k => next_up x :: above k (next_up x)
  end.

Definition neighbours (n : nat) (x : float) : list float :=
  (below n x ++ x :: above n x)%list.

(** The rational that a finite float is. *)
Definition toQ (x : float) : Q :=
  match FloatOps.Prim2SF x with
  | SpecFloat.S754_finite s m e =>
      let v := (inject_Z (Z.pos m) * Qpower (2 # 1) e)%Q in
      if s then Qopp v else v
  | _ => 0%Q
  end.

End Binary64.

(** ** The deal evaluator *)

(** The four arrays that [analyzeDeal] fills by [push]. *)
Module Lists.
Record t : Type := mk {
  strengths : list string;
  weaknesses : list string;
  opportunities : list string;
  threats : list string
}.
Definition empty : t := mk [] [] [] [].
Definition pushStrength (s : string) (l : t) : t :=
  mk (strengths l ++ [s])%list (weaknesses l) (opportunities l) (threats l).
Definition pushWeakness (s : string) (l : t) : t :=
  mk (strengths l) (weaknesses l ++ [s])%list (opportunities l) (threats l).
Definition pushOpportunity (s : string) (l : t) : t :=
  mk (strengths l) (weaknesses l) (opportunities l ++ [s])%list (threats l).
Definition pushThreat (s : string) (l : t) : t :=
  mk (strengths l) (weaknesses l) (opportunities l) (threats l ++ [s])%list.
End Lists.

(** [x?.toString() || d]: the default [d] replaces both a missing field and
    the empty string. *)
Definition orDefault (x : option string) (d : string) : string :=
  match x with
  | Some (String c r) => String c r
  | _ => d
  end.

(** [x === s] for an optional string field and a string literal. *)
Definition strictEquals (x : option string) (s : string) : bool :=
  match x with
  | Some y => (y =? s)%string
  | None => false
  end.

Section Evaluator.

Import CalculationResults Lists.
Local Open Scope js_scope.

Definition calculateDealScore (metrics : CalculationResults.t)
    (strengthCount weaknessCount : number) : number :=
  let score := ofZ 70 in
  let score :=
    if ge metrics.(debtServiceCoverageRatio) (ofZ 2) then score + ofZ 10
    else if ge metrics.(debtServiceCoverageRatio) (dec 15 10) then score + ofZ 5
    else if lt metrics.(debtServiceCoverageRatio) (dec 125 100) then score - ofZ 10
    else score in
  let score :=
    if le metrics.(ebitdaMultiple) (ofZ 4) then score + ofZ 10
    else if ge metrics.(ebitdaMultiple) (ofZ 7) then score - ofZ 10
    else score in
  let score := score + (strengthCount * ofZ 3) in
  let score := score - (weaknessCount * ofZ 3) in
  Math.min (ofZ 100) (Math.max (ofZ 0) score).

(** The rule checks of [analyzeDeal] that precede the industry rule, in the
    order of the source. *)
Definition generalFindings (metrics : CalculationResults.t) : Lists.t :=
  let l := Lists.empty in
  let l :=
    if le metrics.(ebitdaMultiple) (ofZ 4)
    then pushStrength "Below market valuation (EBITDA multiple < 4x)" l
    else if ge metrics.(ebitdaMultiple) (ofZ 7)
    then pushWeakness "Premium valuation (EBITDA multiple > 7x)" l
    else l in
  let l := pushWeakness "Technology systems could be modernized" l in
  let l := pushWeakness "Marketing strategy needs enhancement" l in
  let l :=
    if ge metrics.(debtServiceCoverageRatio) (dec 15 10)
    then pushStrength
           ("Strong debt coverage ("
              ++ toFixed metrics.(debtServiceCoverageRatio) 2 ++ "x DSCR)") l
    else if lt metrics.(debtServiceCoverageRatio) (dec 125 100)
    then pushWeakness
           ("Tight debt coverage ("
              ++ toFixed metrics.(debtServiceCoverageRatio) 2 ++ "x DSCR)") l
    else l in
  let recurringRevenue :=
    num (parseInt (orDefault (option_map replaceNonDigits metrics.(recurringRevenue)) "0")) in
  let totalRevenue :=
    num (parseInt (orDefault (option_map replaceNonDigits metrics.(revenue)) "1")) in
  let recurringRevenuePercent := (recurringRevenue / totalRevenue) * ofZ 100 in
  let l :=
    if ge recurringRevenuePercent (ofZ 30)
    then pushStrength
           ("High recurring revenue (" ++ toFixed recurringRevenuePercent 0 ++ "%)") l
    else pushOpportunity "Opportunity to increase service contracts"
           (pushWeakness
              ("Low recurring revenue (" ++ toFixed recurringRevenuePercent 0 ++ "%)") l) in
  let topCustomerRevenue :=
    num (parseInt (orDefault (option_map replaceNonDigits metrics.(topCustomerRevenue)) "0")) in
  let customerConcentration := (topCustomerRevenue / totalRevenue) * ofZ 100 in
  let l :=
    if gt customerConcentration (ofZ 20)
    then pushWeakness "Customer diversification needed"
           (pushThreat
              ("High customer concentration ("
                 ++ toFixed customerConcentration 0 ++ "% from top customer)") l)
    else pushStrength "Well-diversified customer base" l in
  let yearsInBusiness := parseInt (orDefault metrics.(yearsInBusiness) "0") in
  let l :=
    if ge (num yearsInBusiness) (ofZ 10)
    then pushStrength
           ("Established business ("
              ++ integerToString yearsInBusiness ++ " years operating)") l
    else pushOpportunity "Room for operational improvements"
           (pushWeakness
              ("Limited operating history ("
                 ++ integerToString yearsInBusiness ++ " years)") l) in
  l.

(** The industry rule: [if (metrics.industry === 'services') { ... }]. *)
Definition industryFindings (metrics : CalculationResults.t) (l : Lists.t) : Lists.t :=
  if strictEquals metrics.(industry) "services" then
    let l := pushOpportunity "Growing demand for HVAC services" l in
    let l := pushOpportunity "Energy efficiency upgrade opportunities" l in
    let l := pushThreat "Labor market challenges" l in
    let l := pushThreat "Equipment supply chain risks" l in
    let l := pushWeakness "Seasonal revenue fluctuations" l in
    l
  else l.

Definition analyzeDeal (metrics : CalculationResults.t) : DealAnalysis.t :=
  let l := industryFindings metrics (generalFindings metrics) in
  let score :=
    calculateDealScore metrics
      (ofNat (List.length l.(strengths))) (ofNat (List.length l.(weaknesses))) in
  let '(recommendation, color) :=
    if ge score (ofZ 85) then (StrongBuy, "text-green-500")
    else if ge score (ofZ 70) then (Buy, "text-green-400")
    else if ge score (ofZ 50) then (Neutral, "text-yellow-500")
    else if ge score (ofZ 30) then (Caution, "text-orange-500")
    else (Pass, "text-red-500") in
  {| DealAnalysis.recommendation := recommendation;
     DealAnalysis.color := color;
     DealAnalysis.strengths := l.(strengths);
     DealAnalysis.weaknesses := l.(weaknesses);
     DealAnalysis.opportunities := l.(opportunities);
     DealAnalysis.threats := l.(threats) |}.

End Evaluator.

(** ** Statements of the specification, written from its words *)

Section Specification.

Local Open Scope js_scope.

(** Clamping into [0,100]; NaN is left alone, as every comparison with it
    fails. *)
Definition clamp (x : number) : number :=
  if lt x (ofZ 0) then ofZ 0
  else if gt x (ofZ 100) then ofZ 100
  else x.

(** Membership of the closed interval [0,100]. *)
Definition inRange (x : number) : bool := le (ofZ 0) x && le x (ofZ 100).

(** A fixed amount that applies only when its condition holds. *)
Definition when (c : bool) (x : number) : number := if c then x else ofZ 0.

Definition riskIndustryAdjustment (industry : string) : number :=
  if (industry =? "tech")%string then ofZ 10
  else if (industry =? "retail")%string then ofZ 5
  else if (industry =? "manufacturing")%string then ofZ (-10)
  else ofZ 0.

(** The risk score as the specification words it. *)
Definition riskScoreSpec (revenue ebitda askingPrice recurringRevenue : number)
    (industry : string) : number :=
  clamp (ofZ 100
         - when (gt revenue (ofZ 2000000)) (dec 15 10 * (revenue - ofZ 2000000))
         - when (gt (ebitda / askingPrice) (dec 3 10)) (ofZ 10)
         + riskIndustryAdjustment industry
         - dec 5 10 * recurringRevenue
         - Math.min (ofZ 2 * askingPrice) (ofZ 20)).

(** The composite score as the specification words it. *)
Definition dealScoreSpec (dscr ebitdaMultiple : number) (s w : nat) : number :=
  clamp (ofZ 70
         + when (ge dscr (ofZ 2)) (ofZ 10)
         + when (ge dscr (dec 15 10) && lt dscr (ofZ 2)) (ofZ 5)
         - when (lt dscr (dec 125 100)) (ofZ 10)
         + when (le ebitdaMultiple (ofZ 4)) (ofZ 10)
         - when (ge ebitdaMultiple (ofZ 7)) (ofZ 10)
         + ofZ 3 * ofNat s
         - ofZ 3 * ofNat w).

(** The adjustment that the two ratios of the metrics contribute to the
    score, before the counts are added. *)
Definition ratioAdjustment (dscr ebitdaMultiple : number) : Z :=
  ((if ge dscr (ofZ 2) then 10
    else if ge dscr (dec 15 10) then 5
    else if lt dscr (dec 125 100) then -10 else 0)
   + (if le ebitdaMultiple (ofZ 4) then 10
      else if ge ebitdaMultiple (ofZ 7) then -10 else 0))%Z.

Definition recommendationSpec (score : number) : Recommendation :=
  if ge score (ofZ 85) then StrongBuy
  else if ge score (ofZ 70) then Buy
  else if ge score (ofZ 50) then Neutral
  else if ge score (ofZ 30) then Caution
  else Pass.

(** The simple sum of a sequence. *)
Definition sum (l : list number) : number :=
  fold_left add l (ofZ 0).

(** The number of findings of an analysis, over its four lists. *)
Definition findingCount (a : DealAnalysis.t) : nat :=
  (List.length (DealAnalysis.strengths a)
   + List.length (DealAnalysis.weaknesses a)
   + List.length (DealAnalysis.opportunities a)
   + List.length (DealAnalysis.threats a))%nat.

(** The same metrics under another industry tag. *)
Definition withIndustry (m : CalculationResults.t) (i : option string)
  : CalculationResults.t :=
  let 'CalculationResults.mk a b c d e f g h i0 j k l m0 n o p q r s t u _ := m in
  CalculationResults.mk a b c d e f g h i0 j k l m0 n o p q r s t u i.

(** Every numeric field of the form parses to a number that is not
    negative. *)
Definition isNonNegative (x : number) : bool :=
  isFinite x && le (ofZ 0) x.

Definition nonNegativeInput (values : FormValues.t) : bool :=
  isNonNegative (num (parseInt (replaceNonDigits (FormValues.askingPrice values))))
  && isNonNegative (num (parseInt (replaceNonDigits (FormValues.revenue values))))
  && isNonNegative (num (parseInt (replaceNonDigits (FormValues.ebitda values))))
  && isNonNegative (num (parseInt (replaceNonDigits (FormValues.ownerSalary values))))
  && isNonNegative (num (parseInt (replaceNonDigits (FormValues.recurringRevenue values))))
  && isNonNegative (num (parseInt (replaceNonDigits (FormValues.topCustomerRevenue values))))
  && isNonNegative (num (parseInt (FormValues.yearsInBusiness values)))
  && isNonNegative (num (parseInt (FormValues.downPayment values)))
  && isNonNegative (num (parseInt (FormValues.sellerNote values)))
  && isNonNegative (num (parseInt (FormValues.interestRate values)))
  && isNonNegative (num (parseInt (FormValues.loanTerm values))).

End Specification.

(** A deal financed beyond its price: 60% down and a 60% seller note. *)
Definition overFinanced : FormValues.t := {|
  FormValues.askingPrice := "1,000,000";
  FormValues.revenue := "800,000";
  FormValues.ebitda := "200,000";
  FormValues.ownerSalary := "80,000";
  FormValues.recurringRevenue := "0";
  FormValues.topCustomerRevenue := "100,000";
  FormValues.yearsInBusiness := "4";
  FormValues.downPayment := "60";
  FormValues.sellerNote := "60";
  FormValues.interestRate := "8";
  FormValues.loanTerm := "10";
  FormValues.industry := "retail"
|}.

(** A deal bought with no money down. *)
Definition nothingDown : FormValues.t := {|
  FormValues.askingPrice := "2,500,000";
  FormValues.revenue := "3,000,000";
  FormValues.ebitda := "450,000";
  FormValues.ownerSalary := "150,000";
  FormValues.recurringRevenue := "900,000";
  FormValues.topCustomerRevenue := "300,000";
  FormValues.yearsInBusiness := "15";
  FormValues.downPayment := "0";
  FormValues.sellerNote := "10";
  FormValues.interestRate := "10.5";
  FormValues.loanTerm := "10";
  FormValues.industry := "services"
|}.

(** A deal in distress: a price of seventy times the earnings, debt that the
    earnings do not cover, no recurring revenue, one dominant customer and a
    short history. *)
Definition distressed : FormValues.t := {|
  FormValues.askingPrice := "7,000,000";
  FormValues.revenue := "1,000,000";
  FormValues.ebitda := "100,000";
  FormValues.ownerSalary := "90,000";
  FormValues.recurringRevenue := "0";
  FormValues.topCustomerRevenue := "500,000";
  FormValues.yearsInBusiness := "2";
  FormValues.downPayment := "10";
  FormValues.sellerNote := "10";
  FormValues.interestRate := "11";
  FormValues.loanTerm := "10";
  FormValues.industry := "services"
|}.

(** A business without earnings, and a form whose recurring revenue was left
    without a digit. *)
Definition noEarnings : FormValues.t := {|
  FormValues.askingPrice := "500,000";
  FormValues.revenue := "900,000";
  FormValues.ebitda := "0";
  FormValues.ownerSalary := "60,000";
  FormValues.recurringRevenue := "100,000";
  FormValues.topCustomerRevenue := "90,000";
  FormValues.yearsInBusiness := "12";
  FormValues.downPayment := "10";
  FormValues.sellerNote := "10";
  FormValues.interestRate := "9";
  FormValues.loanTerm := "10";
  FormValues.industry := "retail"
|}.

Definition blankRecurring : FormValues.t := {|
  FormValues.askingPrice := "2,500,000";
  FormValues.revenue := "3,000,000";
  FormValues.ebitda := "450,000";
  FormValues.ownerSalary := "150,000";
  FormValues.recurringRevenue := "n/a";
  FormValues.topCustomerRevenue := "300,000";
  FormValues.yearsInBusiness := "15";
  FormValues.downPayment := "5";
  FormValues.sellerNote := "5";
  FormValues.interestRate := "10";
  FormValues.loanTerm := "10";
  FormValues.industry := "tech"
|}.

(** ** The input formatter of the form *)

Section Formatter.

Local Open Scope string_scope.

(** Commas between groups of three digits, counted from the right: a comma
    follows a digit when the digits left after it are a positive multiple
    of three. *)
Fixpoint groupThousands (s : string) : string :=
  match s with
  | EmptyString => EmptyString
  | String c r =>
      String c
        (if (0 <? String.length r)%nat && (String.length r mod 3 =? 0)%nat
         then "," ++ groupThousands r
         else groupThousands r)
  end.

(** [new Intl.NumberFormat('en-US').format(n)] on a result of [parseInt]: the
    decimal digits of the integer, grouped by thousands.  These are the
    digits the program prints for an integer up to [MAX_SAFE_INTEGER]. *)
Definition formatEnUS (i : integer) : string :=
  match i with
  | Some z =>
      (if (z <? 0)%Z then "-" else "")
        ++ groupThousands (NilZero.string_of_uint (N.to_uint (Z.abs_N z)))
  | None => "NaN"
  end.

(** The value of a decimal numeral read digit by digit, most significant
    first, from the value [a] read so far. *)
Fixpoint accumulate (d : Decimal.uint) (a : N) : N :=
  match d with
  | Decimal.Nil => a
  | Decimal.D0 l => accumulate l (a * 10)
  | Decimal.D1 l => accumulate l (a * 10 + 1)
  | Decimal.D2 l => accumulate l (a * 10 + 2)
  | Decimal.D3 l => accumulate l (a * 10 + 3)
  | Decimal.D4 l => accumulate l (a * 10 + 4)
  | Decimal.D5 l => accumulate l (a * 10 + 5)
  | Decimal.D6 l => accumulate l (a * 10 + 6)
  | Decimal.D7 l => accumulate l (a * 10 + 7)
  | Decimal.D8 l => accumulate l (a * 10 + 8)
  | Decimal.D9 l => accumulate l (a * 10 + 9)
  end%N.

Definition formatNumber (value : string) : string :=
  let number := replaceNonDigits value in
  if (number =? "")%string then ""
  else formatEnUS (parseInt number).

End Formatter.

(** The form values with another interest rate, loan term, down payment or
    seller note entered. *)
Definition withInterestRate (values : FormValues.t) (s : string) : FormValues.t :=
  let 'FormValues.mk a b c d e f g h i _ k l := values in
  FormValues.mk a b c d e f g h i s k l.

Definition withLoanTerm (values : FormValues.t) (s : string) : FormValues.t :=
  let 'FormValues.mk a b c d e f g h i j _ l := values in
  FormValues.mk a b c d e f g h i j s l.

Definition withDownPayment (values : FormValues.t) (s : string) : FormValues.t :=
  let 'FormValues.mk a b c d e f g _ i j k l := values in
  FormValues.mk a b c d e f g s i j k l.

Definition withSellerNote (values : FormValues.t) (s : string) : FormValues.t :=
  let 'FormValues.mk a b c d e f g h _ j k l := values in
  FormValues.mk a b c d e f g h s j k l.

(** The three quantities that [analyzeDeal] derives from the echoed form
    fields before it tests them. *)
Definition recurringRevenuePercent (metrics : CalculationResults.t) : number :=
  (num (parseInt (orDefault (option_map replaceNonDigits
                               (CalculationResults.recurringRevenue metrics)) "0"))
   / num (parseInt (orDefault (option_map replaceNonDigits
                                 (CalculationResults.revenue metrics)) "1"))
   * ofZ 100)%js.

Definition customerConcentration (metrics : CalculationResults.t) : number :=
  (num (parseInt (orDefault (option_map replaceNonDigits
                               (CalculationResults.topCustomerRevenue metrics)) "0"))
   / num (parseInt (orDefault (option_map replaceNonDigits
                                 (CalculationResults.revenue metrics)) "1"))
   * ofZ 100)%js.

Definition yearsOperating (metrics : CalculationResults.t) : integer :=
  parseInt (orDefault (CalculationResults.yearsInBusiness metrics) "0").

(** The sizes of the four lists: strengths, weaknesses, opportunities and
    threats, and their sum entry by entry. *)
Definition tally (l : Lists.t) : nat * nat * nat * nat :=
  (List.length (Lists.strengths l), List.length (Lists.weaknesses l),
   List.length (Lists.opportunities l), List.length (Lists.threats l)).

Definition tallyPlus (x y : nat * nat * nat * nat) : nat * nat * nat * nat :=
  let '(a, b, c, d) := x in
  let '(a', b', c', d') := y in
  (a + a', b + b', c + c', d + d')%nat.

(** The composite score that [analyzeDeal] computes from its own lists. *)
Definition analysisScore (m : CalculationResults.t) : number :=
  calculateDealScore m
    (ofNat (List.length (DealAnalysis.strengths (analyzeDeal m))))
    (ofNat (List.length (DealAnalysis.weaknesses (analyzeDeal m)))).

(** The points of an analysis, counted from the tests that [analyzeDeal] and
    [calculateDealScore] make: 70, the adjustment of the two ratios, three
    per strength and minus three per weakness. *)
Definition analysisPoints (m : CalculationResults.t) : Z :=
  let dscr := CalculationResults.debtServiceCoverageRatio m in
  let multiple := CalculationResults.ebitdaMultiple m in
  let valued := le multiple (ofZ 4) in
  let premium := negb valued && ge multiple (ofZ 7) in
  let covered := ge dscr (dec 15 10) in
  let tight := negb covered && lt dscr (dec 125 100) in
  let recurring := ge (recurringRevenuePercent m) (ofZ 30) in
  let concentrated := gt (customerConcentration m) (ofZ 20) in
  let established := ge (num (yearsOperating m)) (ofZ 10) in
  let services := strictEquals (CalculationResults.industry m) "services" in
  (70 + ratioAdjustment dscr multiple
   + 3 * Z.of_nat (Nat.b2n valued + Nat.b2n covered + Nat.b2n recurring
                   + Nat.b2n (negb concentrated) + Nat.b2n established)
   - 3 * Z.of_nat (Nat.b2n premium + 2 + Nat.b2n tight + Nat.b2n (negb recurring)
                   + Nat.b2n concentrated + Nat.b2n (negb established)
                   + Nat.b2n services))%Z.

(** The constant that the industry contributes to a score: the values for
    tech, retail, manufacturing and every other industry. *)
Definition byIndustry (industry : string) (tech retail manufacturing other : number)
  : number :=
  if (industry =? "tech")%string then tech
  else if (industry =? "retail")%string then retail
  else if (industry =? "manufacturing")%string then manufacturing
  else other.

(** ** The string functions on sample inputs *)

Section StringExamples.

Local Open Scope string_scope.

Example parseInt_plain : parseInt "15" = Some 15%Z.
Proof. reflexivity. Qed.
Example parseInt_fraction : parseInt "10.5" = Some 10%Z.
Proof. reflexivity. Qed.
Example parseInt_signed : parseInt "  -7%" = Some (-7)%Z.
Proof. reflexivity. Qed.
Example parseInt_hex : parseInt "0x1f" = Some 31%Z.
Proof. reflexivity. Qed.
Example parseInt_empty : parseInt (replaceNonDigits "n/a") = None.
Proof. reflexivity. Qed.
Example parseInt_currency : parseInt (replaceNonDigits "2,500,000") = Some 2500000%Z.
Proof. reflexivity. Qed.
Example toFixed_two : toFixed (dec 11948 10000) 2 = "1.19".
Proof. reflexivity. Qed.
Example toFixed_zero : toFixed (dec 305 10) 0 = "31".
Proof. reflexivity. Qed.
Example toFixed_small : toFixed (dec (-1) 1000) 2 = "-0.00".
Proof. reflexivity. Qed.
Example integerToString_neg : integerToString (Some (-12)%Z) = "-12".
Proof. reflexivity. Qed.

End StringExamples.

(** ** Arithmetic of the number model *)

Lemma Qc_eq_Qeq (a b : Qc) : a = b -> (a == b)%Q.
Proof. intros ->. reflexivity. Qed.

(** Moves a goal over [Qc] to [Q], where [lra] decides it. *)
Ltac qc2q :=
  repeat match goal with
  | H : @eq Qc _ _ |- _ => apply Qc_eq_Qeq in H
  end;
  try apply Qc_is_canon;
  unfold Qcle, Qclt, Qcminus, Qcdiv, Qcplus, Qcmult, Qcopp, Qcinv in *;
  cbn [this Q2Qc] in *;
  rewrite ?Qred_correct in *;
  unfold inject_Z in *.

Ltac qc_solve :=
  first [ reflexivity
        | exfalso; qc2q; lra
        | apply (f_equal Fin); qc2q; lra
        | qc2q; lra ].

Section NumberFacts.

Local Open Scope Qc_scope.

Lemma Qccompare_spec (a b : Qc) : CompareSpec (a = b) (a < b) (b < a) (a ?= b).
Proof.
  destruct (a ?= b) eqn:E; constructor.
  - now apply Qceq_alt.
  - now apply Qclt_alt.
  - now apply Qcgt_alt.
Qed.

Lemma le_Fin a b : le (Fin a) (Fin b) = true <-> a <= b.
Proof.
  cbn. destruct (Qccompare_spec a b) as [E|L|G]; split; intro H; try easy.
  - subst. apply Qcle_refl.
  - now apply Qclt_le_weak.
  - exfalso. exact (Qclt_not_le _ _ G H).
Qed.

Lemma lt_Fin a b : lt (Fin a) (Fin b) = true <-> a < b.
Proof.
  cbn. destruct (Qccompare_spec a b) as [E|L|G]; split; intro H; try easy.
  - subst. exfalso. revert H. apply Qcle_not_lt, Qcle_refl.
  - exfalso. exact (Qclt_not_le _ _ G (Qclt_le_weak _ _ H)).
Qed.

Lemma le_Fin_false a b : le (Fin a) (Fin b) = false <-> b < a.
Proof.
  rewrite <- not_true_iff_false, le_Fin. split.
  - apply Qcnot_le_lt.
  - intros H H'. exact (Qclt_not_le _ _ H H').
Qed.

Lemma lt_Fin_false a b : lt (Fin a) (Fin b) = false <-> b <= a.
Proof.
  rewrite <- not_true_iff_false, lt_Fin. split.
  - apply Qcnot_lt_le.
  - intros H H'. exact (Qcle_not_lt _ _ H H').
Qed.

End NumberFacts.

(** Splits on every comparison of two finite numbers in the goal. *)
Ltac cmp_cases :=
  repeat match goal with
  | |- context [le (Fin ?a) (Fin ?b)] =>
      let E := fresh "E" in
      destruct (le (Fin a) (Fin b)) eqn:E;
      [apply le_Fin in E | apply le_Fin_false in E]
  | |- context [lt (Fin ?a) (Fin ?b)] =>
      let E := fresh "E" in
      destruct (lt (Fin a) (Fin b)) eqn:E;
      [apply lt_Fin in E | apply lt_Fin_false in E]
  end.

Section ClampFacts.

Local Open Scope Qc_scope.

Lemma clamp_max_min x : Math.max (ofZ 0) (Math.min (ofZ 100) x) = clamp x.
Proof.
  destruct x as [q| | |]; try reflexivity.
  unfold clamp, gt, Math.min, Math.max, ofZ.
  cmp_cases; cbn [le lt]; cmp_cases; qc_solve.
Qed.

Lemma clamp_min_max x : Math.min (ofZ 100) (Math.max (ofZ 0) x) = clamp x.
Proof.
  destruct x as [q| | |]; try reflexivity.
  unfold clamp, gt, Math.min, Math.max, ofZ.
  cmp_cases; cbn [le lt]; cmp_cases; qc_solve.
Qed.

Lemma clamp_inRange q : inRange (clamp (Fin q)) = true.
Proof.
  unfold inRange, clamp, gt, ofZ.
  cmp_cases; cmp_cases; cbn [andb]; try qc_solve.
Qed.

End ClampFacts.

Section ArithmeticFacts.

Local Open Scope js_scope.

Lemma sub_zero x : x - ofZ 0 = x.
Proof. destruct x; try reflexivity. cbn. qc_solve. Qed.

Lemma add_zero x : x + ofZ 0 = x.
Proof. destruct x; try reflexivity. cbn. qc_solve. Qed.

Lemma mul_comm x y : x * y = y * x.
Proof. destruct x, y; try reflexivity. cbn. f_equal. apply Qcmult_comm. Qed.

Lemma add_neg_ten x : x + ofZ (-10) = x - ofZ 10.
Proof. destruct x; reflexivity. Qed.

Lemma add_one_zero : ofZ 1 + ofZ 0 = ofZ 1.
Proof. apply (f_equal Fin), Qc_is_canon. reflexivity. Qed.

Lemma div_one x : x / ofZ 1 = x.
Proof.
  destruct x as [q| | |]; try reflexivity.
  cbn. apply (f_equal Fin). qc2q. field.
Qed.

Lemma Qred_inject_Z z : Qred (inject_Z z) = inject_Z z.
Proof. apply Qred_iff. cbn. apply Z.gcd_1_r. Qed.

Lemma asInteger_ofZ z : Math.asInteger (Q2Qc (inject_Z z)) = Some z.
Proof.
  unfold Math.asInteger. cbn [this Q2Qc]. rewrite Qred_inject_Z. reflexivity.
Qed.

Lemma pow_one_ofNat n : Math.pow (ofZ 1) (ofNat n) = ofZ 1.
Proof.
  unfold Math.pow, ofNat, ofZ. rewrite asInteger_ofZ.
  destruct (Z.of_nat n) eqn:E; try reflexivity.
  - cbn [Math.powZ]. apply (f_equal Fin), Q2Qc_eq_iff.
    change (this (Q2Qc (inject_Z 1))) with 1%Q. apply Qpower_1.
  - lia.
Qed.

End ArithmeticFacts.

(** ** Parsing a currency field *)

Section Parsing.

Local Open Scope string_scope.

Lemma replaceNonDigits_allDigits s : allDigits (replaceNonDigits s) = true.
Proof.
  induction s as [|c r IH]; [reflexivity|].
  cbn [replaceNonDigits]. destruct (isDigit c) eqn:E; [|exact IH].
  cbn [allDigits]. rewrite E. exact IH.
Qed.

Lemma digitValue_digit c :
  isDigit c = true -> exists d, digitValue 10 c = Some d /\ (0 <= d)%Z.
Proof.
  destruct c as [[] [] [] [] [] [] [] []]; try discriminate; intros _;
    eexists; (split; [reflexivity | discriminate]).
Qed.

Lemma readDigits_nonneg s : forall acc,
  allDigits s = true ->
  match acc with Some a => (0 <= a)%Z | None => True end ->
  match readDigits 10 s acc with Some z => (0 <= z)%Z | None => True end.
Proof.
  induction s as [|c r IH]; intros acc Hs Hacc; [exact Hacc|].
  cbn [allDigits] in Hs. apply andb_true_iff in Hs. destruct Hs as [Hc Hr].
  cbn [readDigits]. destruct (digitValue_digit c Hc) as (d & -> & Hd).
  apply IH; [exact Hr|]. destruct acc; lia.
Qed.

(** On a string of digits [parseInt] skips nothing, reads no sign and no
    [0x] prefix: it is the decimal value of the whole string. *)
Lemma parseInt_allDigits s :
  allDigits s = true ->
  parseInt s = option_map (Z.mul 1) (readDigits 10 s None).
Proof.
  destruct s as [|c r]; [reflexivity|].
  cbn [allDigits]. intros H. apply andb_true_iff in H. destruct H as [Hc Hr].
  destruct c as [[] [] [] [] [] [] [] []]; try discriminate Hc; try reflexivity.
  destruct r as [|c' r']; [reflexivity|].
  cbn [allDigits] in Hr. apply andb_true_iff in Hr. destruct Hr as [Hc' Hr'].
  destruct c' as [[] [] [] [] [] [] [] []]; try discriminate Hc'; reflexivity.
Qed.

(** A currency field, stripped of everything but its digits, never parses to
    a negative number: it is NaN or an integer from 0 on. *)
Lemma parseInt_digits_nonneg s :
  match parseInt (replaceNonDigits s) with
  | Some z => (0 <= z)%Z
  | None => True
  end.
Proof.
  rewrite parseInt_allDigits by apply replaceNonDigits_allDigits.
  pose proof (readDigits_nonneg (replaceNonDigits s) None
                (replaceNonDigits_allDigits s) I) as H.
  destruct (readDigits 10 (replaceNonDigits s) None) as [z|]; [|exact I].
  cbn [option_map]. lia.
Qed.

Lemma currency_field_nonNegative s :
  isFinite (num (parseInt (replaceNonDigits s))) = true ->
  isNonNegative (num (parseInt (replaceNonDigits s))) = true.
Proof.
  pose proof (parseInt_digits_nonneg s) as H.
  destruct (parseInt (replaceNonDigits s)) as [z|]; [|discriminate].
  intros _. unfold isNonNegative, num, ofZ. cbn [isFinite andb].
  apply le_Fin. unfold Qcle. cbn [this Q2Qc]. rewrite !Qred_inject_Z.
  rewrite <- Zle_Qle. exact H.
Qed.

End Parsing.

(** ** Cash-flow projection *)

Section Projection.

Local Open Scope js_scope.

(** The loop runs [year] over 0..4 and skips 0: four entries are pushed, with
    the first four growth rates. *)
Lemma projection_loop ds os e cf :
  fold_left (projectYear ds os) (seq 0 projectedYears) (e, cf) =
  let e1 := e * (ofZ 1 + dec 15 100) in
  let e2 := e1 * (ofZ 1 + dec 12 100) in
  let e3 := e2 * (ofZ 1 + dec 10 100) in
  let e4 := e3 * (ofZ 1 + dec 8 100) in
  (e4, (cf ++ [Math.round (e1 - ds - os); Math.round (e2 - ds - os);
               Math.round (e3 - ds - os); Math.round (e4 - ds - os)])%list).
Proof.
  cbv [projectedYears seq fold_left projectYear Nat.ltb Nat.leb Nat.sub nth growthRates].
  cbv zeta. rewrite <- !app_assoc. reflexivity.
Qed.

Lemma calculateProjectedCashFlows_length values :
  List.length (calculateProjectedCashFlows values) = 5%nat.
Proof.
  unfold calculateProjectedCashFlows. cbv zeta.
  rewrite projection_loop. reflexivity.
Qed.

Lemma calculateProjectedCashFlows_year0 values :
  nth 0 (calculateProjectedCashFlows values) NaN =
  - (num (parseInt (replaceNonDigits (FormValues.askingPrice values)))
     * (num (parseInt (FormValues.downPayment values)) / ofZ 100)).
Proof.
  unfold calculateProjectedCashFlows. cbv zeta.
  rewrite projection_loop. reflexivity.
Qed.

(** C1: on the default form values the projected series has five entries,
    year 0 and years 1 to 4, and not the six of the specification: the loop
    [for (year = 0; year < projectedYears; year++)] skips year 0 and stops
    before year 5, so the 6% rate of the schedule is never applied. *)
Theorem calculateProjectedCashFlows_initialValues :
  calculateProjectedCashFlows initialValues =
  [ofZ (-125000); ofZ (-9130); ofZ 52970; ofZ 110930; ofZ 161935]
  /\ List.length (calculateProjectedCashFlows initialValues) <> 6%nat.
Proof.
  split.
  - vm_compute. reflexivity.
  - rewrite calculateProjectedCashFlows_length. discriminate.
Qed.

End Projection.

(** ** Net present value *)

Section NetPresentValue.

Local Open Scope js_scope.

(** C8: at discount rate 0 the net present value of any cash-flow sequence
    is the simple sum of its entries. *)
Theorem calculateNPV_zero_rate cashFlows :
  calculateNPV cashFlows (ofZ 0) = sum cashFlows.
Proof.
  unfold calculateNPV, sum.
  generalize (ofZ 0) at 2 3 as acc. generalize 0%nat as k.
  induction cashFlows as [|c l IH]; intros k acc; [reflexivity|].
  cbn [List.length seq combine fold_left].
  rewrite add_one_zero, pow_one_ofNat, div_one. apply IH.
Qed.

End NetPresentValue.

(** ** Risk score *)

Section RiskScore.

Local Open Scope js_scope.

(** C4: for every input the risk score is the clamp into [0,100] of 100,
    minus 1.5 x (revenue - 2,000,000) when revenue exceeds 2,000,000, minus
    10 when ebitda / askingPrice > 0.3, plus the industry adjustment, minus
    0.5 x recurringRevenue, minus min (2 x askingPrice, 20). *)
Theorem calculateRiskScore_spec values :
  calculateRiskScore values =
  riskScoreSpec
    (num (parseInt (replaceNonDigits (FormValues.revenue values))))
    (num (parseInt (replaceNonDigits (FormValues.ebitda values))))
    (num (parseInt (replaceNonDigits (FormValues.askingPrice values))))
    (num (parseInt (replaceNonDigits (FormValues.recurringRevenue values))))
    (FormValues.industry values).
Proof.
  unfold calculateRiskScore, riskScoreSpec, riskIndustryAdjustment, when.
  cbv zeta. rewrite clamp_max_min. f_equal.
  rewrite (mul_comm (dec 5 10)), (mul_comm (ofZ 2)), (mul_comm (dec 15 10)).
  repeat match goal with |- context [if ?c then _ else _] => destruct c end;
    rewrite ?sub_zero, ?add_zero, ?add_neg_ten; reflexivity.
Qed.

End RiskScore.

(** ** Deal score and recommendation *)

Section DealScore.

Local Open Scope js_scope.

Lemma ge_two_ge_15 x : ge x (ofZ 2) = true -> ge x (dec 15 10) = true.
Proof.
  unfold ge, ofZ, dec. destruct x as [q| | |]; try discriminate; try reflexivity.
  rewrite !le_Fin. intros. qc_solve.
Qed.

Lemma ge_two_not_lt_two x : ge x (ofZ 2) = true -> lt x (ofZ 2) = false.
Proof.
  unfold ge, ofZ. destruct x as [q| | |]; try discriminate; try reflexivity.
  rewrite le_Fin, lt_Fin_false. auto.
Qed.

Lemma not_ge_two_lt_two x :
  ge x (ofZ 2) = false -> ge x (dec 15 10) = true -> lt x (ofZ 2) = true.
Proof.
  unfold ge, ofZ, dec. destruct x as [q| | |]; try discriminate.
  rewrite le_Fin_false, le_Fin, lt_Fin. auto.
Qed.

Lemma ge_15_not_lt_125 x : ge x (dec 15 10) = true -> lt x (dec 125 100) = false.
Proof.
  unfold ge, ofZ, dec. destruct x as [q| | |]; try discriminate; try reflexivity.
  rewrite le_Fin, lt_Fin_false. intros. qc_solve.
Qed.

Lemma le_four_not_ge_seven x : le x (ofZ 4) = true -> ge x (ofZ 7) = false.
Proof.
  unfold ge, ofZ, dec. destruct x as [q| | |]; try discriminate; try reflexivity.
  rewrite le_Fin, le_Fin_false. intros. qc_solve.
Qed.

Ltac finish_score :=
  unfold ofNat, ofZ; cbn [add sub mul neg];
  repeat match goal with
  | |- context [inject_Z (?a + ?b)%Z] =>
      let v := eval vm_compute in (a + b)%Z in change (a + b)%Z with v
  end;
  apply (f_equal Fin); qc2q; lra.

Lemma calculateDealScore_base m (s w : nat) :
  calculateDealScore m (ofNat s) (ofNat w) =
  clamp (ofZ (70 + ratioAdjustment (CalculationResults.debtServiceCoverageRatio m)
                                   (CalculationResults.ebitdaMultiple m))
         + ofZ 3 * ofNat s - ofZ 3 * ofNat w).
Proof.
  unfold calculateDealScore, ratioAdjustment. cbv zeta.
  rewrite clamp_min_max. f_equal. rewrite !(mul_comm (ofNat _)).
  set (d := CalculationResults.debtServiceCoverageRatio m).
  set (e := CalculationResults.ebitdaMultiple m).
  destruct (ge d (ofZ 2)); [|destruct (ge d (dec 15 10)); [|destruct (lt d (dec 125 100))]];
    (destruct (le e (ofZ 4)); [|destruct (ge e (ofZ 7))]); finish_score.
Qed.

Lemma dealScoreSpec_base dscr ebitdaMultiple (s w : nat) :
  dealScoreSpec dscr ebitdaMultiple s w =
  clamp (ofZ (70 + ratioAdjustment dscr ebitdaMultiple)
         + ofZ 3 * ofNat s - ofZ 3 * ofNat w).
Proof.
  unfold dealScoreSpec, ratioAdjustment, when. f_equal.
  destruct (ge dscr (ofZ 2)) eqn:D2.
  - rewrite (ge_two_ge_15 _ D2), (ge_two_not_lt_two _ D2),
      (ge_15_not_lt_125 _ (ge_two_ge_15 _ D2)).
    cbn [andb].
    destruct (le ebitdaMultiple (ofZ 4)) eqn:E4;
      [rewrite (le_four_not_ge_seven _ E4) | destruct (ge ebitdaMultiple (ofZ 7))];
      finish_score.
  - destruct (ge dscr (dec 15 10)) eqn:D15.
    + rewrite (not_ge_two_lt_two _ D2 D15), (ge_15_not_lt_125 _ D15). cbn [andb].
      destruct (le ebitdaMultiple (ofZ 4)) eqn:E4;
        [rewrite (le_four_not_ge_seven _ E4) | destruct (ge ebitdaMultiple (ofZ 7))];
        finish_score.
    + cbn [andb].
      destruct (lt dscr (dec 125 100));
        (destruct (le ebitdaMultiple (ofZ 4)) eqn:E4;
         [rewrite (le_four_not_ge_seven _ E4) | destruct (ge ebitdaMultiple (ofZ 7))]);
        finish_score.
Qed.

Lemma analyzeDeal_recommendation m :
  DealAnalysis.recommendation (analyzeDeal m) =
  recommendationSpec
    (calculateDealScore m
       (ofNat (List.length (DealAnalysis.strengths (analyzeDeal m))))
       (ofNat (List.length (DealAnalysis.weaknesses (analyzeDeal m))))).
Proof.
  unfold analyzeDeal, recommendationSpec. cbv zeta.
  set (score := calculateDealScore m _ _).
  destruct (ge score (ofZ 85)) eqn:E1;
    [|destruct (ge score (ofZ 70)) eqn:E2;
      [|destruct (ge score (ofZ 50)) eqn:E3;
        [|destruct (ge score (ofZ 30)) eqn:E4]]];
    cbn [DealAnalysis.recommendation DealAnalysis.strengths
         DealAnalysis.weaknesses];
    fold score; rewrite ?E1, ?E2, ?E3, ?E4; reflexivity.
Qed.

(** C3: for strength count [s] and weakness count [w] the composite score is
    the clamp into [0,100] of 70, +10 if DSCR >= 2, +5 if DSCR is in [1.5,2),
    -10 if DSCR < 1.25, +10 if ebitdaMultiple <= 4, -10 if ebitdaMultiple >= 7,
    +3s, -3w; and the recommendation of [analyzeDeal] is the tier of the score
    of its own strength and weakness lists: Strong Buy from 85, Buy from 70,
    Neutral from 50, Caution from 30, else Pass. *)
Theorem deal_score_and_recommendation m :
  (forall s w : nat,
     calculateDealScore m (ofNat s) (ofNat w) =
     dealScoreSpec (CalculationResults.debtServiceCoverageRatio m)
                   (CalculationResults.ebitdaMultiple m) s w)
  /\ DealAnalysis.recommendation (analyzeDeal m) =
     recommendationSpec
       (calculateDealScore m
          (ofNat (List.length (DealAnalysis.strengths (analyzeDeal m))))
          (ofNat (List.length (DealAnalysis.weaknesses (analyzeDeal m))))).
Proof.
  split.
  - intros s w. rewrite calculateDealScore_base, dealScoreSpec_base. reflexivity.
  - apply analyzeDeal_recommendation.
Qed.

End DealScore.

(** ** The industry rule of the evaluator *)

Section IndustryRule.

Import DealAnalysis.
Local Open Scope string_scope.

Lemma generalFindings_withIndustry m i :
  generalFindings (withIndustry m i) = generalFindings m.
Proof. destruct m. reflexivity. Qed.

Lemma industry_withIndustry m i :
  CalculationResults.industry (withIndustry m i) = i.
Proof. destruct m. reflexivity. Qed.

Lemma strictEquals_true x s : strictEquals x s = true <-> x = Some s.
Proof.
  destruct x as [y|]; cbn; [|easy].
  rewrite String.eqb_eq. split; congruence.
Qed.

Lemma analyzeDeal_lists m :
  let l := industryFindings m (generalFindings m) in
  strengths (analyzeDeal m) = Lists.strengths l
  /\ weaknesses (analyzeDeal m) = Lists.weaknesses l
  /\ opportunities (analyzeDeal m) = Lists.opportunities l
  /\ threats (analyzeDeal m) = Lists.threats l.
Proof.
  unfold analyzeDeal. cbv zeta.
  repeat match goal with |- context [if ?c then _ else _] => destruct c end;
    cbn; auto.
Qed.

(** C2, as stated, fails: on the metrics of the default form values, whose
    industry is "services", the analysis holds five findings more than the
    analysis of the same metrics under another industry, not four. *)
Lemma services_findings_count_not_four :
  CalculationResults.industry (calculateMetrics initialValues) = Some "services"
  /\ findingCount (analyzeDeal (calculateMetrics initialValues)) <>
     (findingCount
        (analyzeDeal (withIndustry (calculateMetrics initialValues) (Some "other")))
      + 4)%nat.
Proof.
  split.
  - reflexivity.
  - vm_compute. intros H. discriminate H.
Qed.

(** C2, amended: when the industry is "services" the evaluator appends five
    fixed findings, whatever the other values are: one weakness, two
    opportunities and two threats, each at the end of its list; the
    strengths are untouched. *)
Theorem services_findings_five m i :
  CalculationResults.industry m = Some "services" ->
  i <> Some "services" ->
  let a := analyzeDeal m in
  let b := analyzeDeal (withIndustry m i) in
  strengths a = strengths b
  /\ weaknesses a = (weaknesses b ++ ["Seasonal revenue fluctuations"])%list
  /\ opportunities a =
     (opportunities b ++ ["Growing demand for HVAC services";
                          "Energy efficiency upgrade opportunities"])%list
  /\ threats a =
     (threats b ++ ["Labor market challenges"; "Equipment supply chain risks"])%list
  /\ findingCount a = (findingCount b + 5)%nat.
Proof.
  intros Hs Hi a b.
  assert (Ha := analyzeDeal_lists m).
  assert (Hb := analyzeDeal_lists (withIndustry m i)).
  cbv zeta in Ha, Hb. fold a in Ha. fold b in Hb.
  rewrite generalFindings_withIndustry in Hb.
  unfold industryFindings in Ha, Hb.
  rewrite industry_withIndustry in Hb.
  apply strictEquals_true in Hs. rewrite Hs in Ha.
  destruct (strictEquals i "services") eqn:E.
  { apply strictEquals_true in E. contradiction. }
  destruct Ha as (A1 & A2 & A3 & A4), Hb as (B1 & B2 & B3 & B4).
  cbn in A1, A2, A3, A4.
  assert (S : strengths a = strengths b) by congruence.
  assert (W : weaknesses a = (weaknesses b ++ ["Seasonal revenue fluctuations"])%list)
    by congruence.
  assert (O : opportunities a =
              (opportunities b ++ ["Growing demand for HVAC services";
                                   "Energy efficiency upgrade opportunities"])%list).
  { rewrite A3, B3, <- app_assoc. reflexivity. }
  assert (T : threats a =
              (threats b ++ ["Labor market challenges";
                             "Equipment supply chain risks"])%list).
  { rewrite A4, B4, <- app_assoc. reflexivity. }
  repeat split; trivial.
  unfold findingCount. rewrite S, W, O, T, !length_app. cbn. lia.
Qed.

Lemma services_findings_five_witness :
  findingCount (analyzeDeal (calculateMetrics initialValues)) =
  (findingCount
     (analyzeDeal (withIndustry (calculateMetrics initialValues) (Some "retail")))
   + 5)%nat.
Proof.
  apply (services_findings_five (calculateMetrics initialValues) (Some "retail")).
  - reflexivity.
  - discriminate.
Defined.

End IndustryRule.

(** ** Financing split *)

Section Financing.

Local Open Scope js_scope.

(** C5: for every input the down payment is askingPrice x downPaymentPct/100
    (year 0 of the series is its negation), the seller note is
    askingPrice x sellerNotePct/100 and the bank loan is what is left of the
    asking price, without a guard: a $2,500,000 price with 5% down and a 5%
    seller note leaves a bank loan of $2,250,000, and percentages that sum
    above 100 leave a negative one. *)
Theorem financing_split values :
  let askingPrice := num (parseInt (replaceNonDigits (FormValues.askingPrice values))) in
  let downPayment := askingPrice * (num (parseInt (FormValues.downPayment values)) / ofZ 100) in
  let sellerNote := askingPrice * (num (parseInt (FormValues.sellerNote values)) / ofZ 100) in
  let r := calculateMetrics values in
  (nth 0 (CalculationResults.projectedCashFlows r) NaN = - downPayment
   /\ CalculationResults.sellerNote r = sellerNote
   /\ CalculationResults.bankLoan r = askingPrice - downPayment - sellerNote)
  /\ (askingPrice = ofZ 2500000 ->
      parseInt (FormValues.downPayment values) = Some 5%Z ->
      parseInt (FormValues.sellerNote values) = Some 5%Z ->
      CalculationResults.bankLoan r = ofZ 2250000)
  /\ lt (CalculationResults.bankLoan (calculateMetrics overFinanced)) (ofZ 0) = true.
Proof.
  cbv zeta. split; [|split].
  - split; [apply calculateProjectedCashFlows_year0 | split; reflexivity].
  - intros Ha Hd Hs.
    unfold calculateMetrics. cbv zeta. cbn [CalculationResults.bankLoan].
    rewrite Ha, Hd, Hs. apply (f_equal Fin), Qc_is_canon. reflexivity.
  - unfold calculateMetrics. cbv zeta. cbn [CalculationResults.bankLoan].
    vm_compute. reflexivity.
Qed.

Lemma financing_split_witness :
  CalculationResults.bankLoan (calculateMetrics initialValues) = ofZ 2250000.
Proof.
  apply (financing_split initialValues); reflexivity.
Defined.

End Financing.

(** ** Ranges of the qualitative scores *)

Ltac split_industry :=
  repeat match goal with
  | |- context [String.eqb ?a ?b] => destruct (String.eqb a b)
  end.

Section ScoreRanges.

Local Open Scope js_scope.

Lemma isNonNegative_Fin x :
  isNonNegative x = true -> exists q, x = Fin q /\ (Q2Qc 0 <= q)%Qc.
Proof.
  destruct x as [q| | |]; try discriminate.
  unfold isNonNegative. cbn [isFinite andb]. unfold ofZ. rewrite le_Fin. eauto.
Qed.

Lemma inRange_clamp_of_finite x : isFinite x = true -> inRange (clamp x) = true.
Proof. destruct x; try discriminate. intros _. apply clamp_inRange. Qed.

Lemma calculateRiskScore_inRange values a r rr :
  num (parseInt (replaceNonDigits (FormValues.askingPrice values))) = Fin a ->
  num (parseInt (replaceNonDigits (FormValues.revenue values))) = Fin r ->
  num (parseInt (replaceNonDigits (FormValues.recurringRevenue values))) = Fin rr ->
  inRange (calculateRiskScore values) = true.
Proof.
  intros Ha Hr Hrr. unfold calculateRiskScore. cbv zeta.
  rewrite clamp_max_min, Ha, Hr, Hrr.
  apply inRange_clamp_of_finite.
  unfold Math.min, ofZ, dec. cbn [mul].
  repeat match goal with |- context [if ?c then _ else _] => destruct c end;
    reflexivity.
Qed.

Lemma calculateMarketScore_inRange values a rr :
  num (parseInt (replaceNonDigits (FormValues.askingPrice values))) = Fin a ->
  num (parseInt (replaceNonDigits (FormValues.recurringRevenue values))) = Fin rr ->
  inRange (calculateMarketScore values) = true.
Proof.
  intros Ha Hrr. unfold calculateMarketScore. cbv zeta.
  rewrite clamp_max_min, Ha, Hrr.
  apply inRange_clamp_of_finite.
  unfold Math.min, ofZ, dec. cbn [mul].
  repeat match goal with |- context [if ?c then _ else _] => destruct c end;
    reflexivity.
Qed.

Lemma calculateCompetitiveThreat_inRange values a rr :
  num (parseInt (replaceNonDigits (FormValues.askingPrice values))) = Fin a ->
  num (parseInt (replaceNonDigits (FormValues.recurringRevenue values))) = Fin rr ->
  (Q2Qc 0 <= a)%Qc -> (Q2Qc 0 <= rr)%Qc ->
  inRange (calculateCompetitiveThreat values) = true.
Proof.
  intros Ha Hrr A R. unfold calculateCompetitiveThreat. cbv zeta.
  rewrite Ha, Hrr. unfold inRange, Math.min, ofZ.
  split_industry; cbn [add mul]; cmp_cases; cbn [andb]; cmp_cases; qc_solve.
Qed.

Lemma calculateGrowthPotential_finite values rr :
  num (parseInt (replaceNonDigits (FormValues.recurringRevenue values))) = Fin rr ->
  isFinite (calculateGrowthPotential values) = true.
Proof.
  intros Hrr. unfold calculateGrowthPotential. cbv zeta. rewrite Hrr.
  unfold ofZ, dec. split_industry; reflexivity.
Qed.

(** The growth potential itself is not clamped by the engine: on the default
    form values it is 630,000. *)
Lemma calculateGrowthPotential_unclamped :
  calculateGrowthPotential initialValues = ofZ 630000
  /\ inRange (calculateGrowthPotential initialValues) = false.
Proof. split; vm_compute; reflexivity. Qed.

(** C6: for every input whose numeric fields are all non-negative, the risk
    score, the market position score and the competitive threat lie in
    [0,100], and so does the growth potential once it is clamped. *)
Theorem scores_in_range values :
  nonNegativeInput values = true ->
  let r := calculateMetrics values in
  inRange (CalculationResults.riskScore r) = true
  /\ inRange (CalculationResults.marketPositionScore r) = true
  /\ inRange (CalculationResults.competitiveThreat r) = true
  /\ inRange (clamp (CalculationResults.growthPotential r)) = true.
Proof.
  unfold nonNegativeInput. rewrite !andb_true_iff.
  intros ((((((((((Ha & Hr) & _) & _) & Hrr) & _) & _) & _) & _) & _) & _).
  apply isNonNegative_Fin in Ha, Hr, Hrr.
  destruct Ha as (a & Ha & A), Hr as (r & Hr & _), Hrr as (rr & Hrr & R).
  cbv zeta. unfold calculateMetrics. cbv zeta.
  cbn [CalculationResults.riskScore CalculationResults.marketPositionScore
       CalculationResults.competitiveThreat CalculationResults.growthPotential].
  repeat split.
  - exact (calculateRiskScore_inRange values a r rr Ha Hr Hrr).
  - exact (calculateMarketScore_inRange values a rr Ha Hrr).
  - exact (calculateCompetitiveThreat_inRange values a rr Ha Hrr A R).
  - apply inRange_clamp_of_finite.
    exact (calculateGrowthPotential_finite values rr Hrr).
Qed.

Lemma scores_in_range_witness :
  nonNegativeInput initialValues = true
  /\ inRange (CalculationResults.riskScore (calculateMetrics initialValues)) = true
  /\ inRange (CalculationResults.marketPositionScore (calculateMetrics initialValues)) = true
  /\ inRange (CalculationResults.competitiveThreat (calculateMetrics initialValues)) = true
  /\ inRange (clamp (CalculationResults.growthPotential (calculateMetrics initialValues))) = true.
Proof.
  split.
  - vm_compute. reflexivity.
  - apply (scores_in_range initialValues). vm_compute. reflexivity.
Defined.

End ScoreRanges.

(** ** Monotonicity of the deal score *)

Section Monotonicity.

Local Open Scope js_scope.

Lemma clamp_monotone a b :
  (a <= b)%Qc -> le (clamp (Fin a)) (clamp (Fin b)) = true.
Proof.
  intros H. unfold clamp, gt, ofZ.
  cmp_cases; rewrite ?le_Fin; try qc_solve.
  all: apply le_Fin; qc_solve.
Qed.

(** C7: with the metrics and the weakness count fixed, a larger strength
    count never lowers the score of [calculateDealScore]. *)
Theorem calculateDealScore_monotone_strengths m (s s' w : nat) :
  (s <= s')%nat ->
  le (calculateDealScore m (ofNat s) (ofNat w))
     (calculateDealScore m (ofNat s') (ofNat w)) = true.
Proof.
  intros H. rewrite !calculateDealScore_base.
  unfold ofNat, ofZ. cbn [add sub mul neg]. apply clamp_monotone.
  assert (Hq : (inject_Z (Z.of_nat s) <= inject_Z (Z.of_nat s'))%Q).
  { rewrite <- Zle_Qle. lia. }
  qc2q. lra.
Qed.

Lemma calculateDealScore_monotone_strengths_witness :
  le (calculateDealScore (calculateMetrics initialValues) (ofNat 3) (ofNat 4))
     (calculateDealScore (calculateMetrics initialValues) (ofNat 5) (ofNat 4)) = true.
Proof.
  apply (calculateDealScore_monotone_strengths (calculateMetrics initialValues) 3 5 4).
  lia.
Defined.

End Monotonicity.

(** ** Debt service: two loans or one *)

Section DebtService.

Local Open Scope js_scope.

Lemma ofZ_mul a b : ofZ a * ofZ b = ofZ (a * b).
Proof.
  unfold ofZ. cbn [mul]. apply (f_equal Fin), Qc_is_canon.
  unfold Qcmult. cbn [this Q2Qc].
  rewrite !Qred_correct, inject_Z_mult. reflexivity.
Qed.

Lemma div_Fin_nonzero a b : b <> Q2Qc 0 -> Fin a / Fin b = Fin (a / b)%Qc.
Proof.
  intros H. cbn [div].
  destruct (Qccompare_spec b (Q2Qc 0)); try reflexivity. contradiction.
Qed.

(** A base above 1 raised to a positive integer stays above 1. *)
Lemma pow_growth (a : Qc) (n : Z) :
  (Q2Qc 1 < a)%Qc -> (0 < n)%Z ->
  exists g, Math.pow (Fin a) (ofZ n) = Fin g /\ (Q2Qc 1 < g)%Qc.
Proof.
  intros Ha Hn. unfold Math.pow, ofZ. rewrite asInteger_ofZ.
  destruct n as [|p|p]; try lia.
  cbn [Math.powZ]. eexists. split; [reflexivity|].
  unfold Qclt in *. cbn [this Q2Qc] in *. rewrite ?Qred_correct.
  apply Qpower_1_lt; [exact Ha | lia].
Qed.

(** With a positive rate and a positive term the payment is the principal
    times a finite factor that depends on the rate and the term only. *)
Lemma annuity_factor (rate : Qc) (years : Z) :
  (Q2Qc 0 < rate)%Qc -> (0 < years)%Z ->
  exists k : Qc, forall p : Qc,
    calculateAnnualDebtService (Fin p) (Fin rate) (ofZ years) = Fin (p * k)%Qc.
Proof.
  intros Hr Hy. unfold calculateAnnualDebtService. cbv zeta.
  rewrite ofZ_mul.
  assert (Hm : Fin rate / ofZ 1200 = Fin (rate / Q2Qc (inject_Z 1200))%Qc).
  { apply div_Fin_nonzero. intros E. discriminate E. }
  rewrite Hm. cbn [add ofZ].
  destruct (pow_growth (Q2Qc (inject_Z 1) + rate / Q2Qc (inject_Z 1200))%Qc
              (years * 12)) as (g & Hg & Hg1).
  { qc2q.
    assert (0 < rate * / 1200)%Q
      by (apply Qmult_lt_0_compat; [exact Hr | reflexivity]).
    lra. }
  { lia. }
  rewrite Hg. unfold ofZ. cbn [mul sub neg add].
  exists (rate / Q2Qc (inject_Z 1200) * g
          / (g + - Q2Qc (inject_Z 1)) * Q2Qc (inject_Z 12))%Qc.
  intros p. rewrite div_Fin_nonzero.
  - cbn [mul]. apply (f_equal Fin). unfold Qcdiv. ring.
  - intros E. qc2q. lra.
Qed.

(** On the record of [calculateMetrics]: in exact arithmetic its
    [totalDebtService] is the debt service of the single call made by the
    projection. *)
Lemma totalDebtService_single_call values (a d s r y : Z) :
  parseInt (replaceNonDigits (FormValues.askingPrice values)) = Some a ->
  parseInt (FormValues.downPayment values) = Some d ->
  parseInt (FormValues.sellerNote values) = Some s ->
  parseInt (FormValues.interestRate values) = Some r ->
  parseInt (FormValues.loanTerm values) = Some y ->
  (0 < r)%Z -> (0 < y)%Z ->
  let m := calculateMetrics values in
  CalculationResults.totalDebtService m =
  calculateAnnualDebtService
    (CalculationResults.bankLoan m + CalculationResults.sellerNote m)
    (ofZ r) (ofZ y).
Proof.
  intros Ha Hd Hs Hr Hy Rpos Ypos. cbv zeta. unfold calculateMetrics. cbv zeta.
  cbn [CalculationResults.totalDebtService CalculationResults.bankLoan
       CalculationResults.sellerNote].
  rewrite Ha, Hd, Hs, Hr, Hy. cbn [num].
  assert (Hp : forall p, ofZ p / ofZ 100
                         = Fin (Q2Qc (inject_Z p) / Q2Qc (inject_Z 100))%Qc).
  { intros p. apply div_Fin_nonzero. intros E. discriminate E. }
  rewrite !Hp.
  set (dp := ofZ a * Fin _). set (sn := ofZ a * Fin _).
  assert (Hbank : exists b, ofZ a - dp - sn = Fin b) by (eexists; reflexivity).
  assert (Hnote : exists n, sn = Fin n) by (eexists; reflexivity).
  destruct Hbank as (b & ->), Hnote as (n & ->).
  assert (Rq : (Q2Qc 0 < Q2Qc (inject_Z r))%Qc).
  { unfold Qclt. cbn [this Q2Qc]. rewrite !Qred_inject_Z.
    rewrite Zlt_Qlt in Rpos. exact Rpos. }
  destruct (annuity_factor (Q2Qc (inject_Z r)) y Rq Ypos) as (k & Hk).
  change (ofZ r) with (Fin (Q2Qc (inject_Z r))).
  cbn [add]. rewrite !Hk. cbn [add].
  apply (f_equal Fin). ring.
Qed.

(** C9, as amended: in exact arithmetic the annuity payment is linear in the
    principal.  For every split of the principal into a bank loan and a
    seller note, every positive rate and every positive term in years, the
    two payments amortized separately and summed equal the payment of the
    combined principal in one call; on numeric form fields with a positive
    rate and term, the [totalDebtService] of [calculateMetrics] is therefore
    the debt service of the single call on [bankLoan + sellerNote], and
    [calculateProjectedCashFlows] is the projection loop run with that
    [totalDebtService].  The doubles of the program round, and there the two
    need not agree to the last bit, as the section on binary64 shows. *)
Theorem debt_service_split_exact values (a d s r y : Z)
    (bankLoan sellerNote rate : Qc) (years : Z) :
  parseInt (replaceNonDigits (FormValues.askingPrice values)) = Some a ->
  parseInt (FormValues.downPayment values) = Some d ->
  parseInt (FormValues.sellerNote values) = Some s ->
  parseInt (FormValues.interestRate values) = Some r ->
  parseInt (FormValues.loanTerm values) = Some y ->
  (0 < r)%Z -> (0 < y)%Z ->
  (Q2Qc 0 < rate)%Qc -> (0 < years)%Z ->
  let m := calculateMetrics values in
  calculateAnnualDebtService (Fin bankLoan) (Fin rate) (ofZ years)
  + calculateAnnualDebtService (Fin sellerNote) (Fin rate) (ofZ years)
  = calculateAnnualDebtService (Fin bankLoan + Fin sellerNote) (Fin rate) (ofZ years)
  /\ CalculationResults.totalDebtService m
     = calculateAnnualDebtService
         (CalculationResults.bankLoan m + CalculationResults.sellerNote m)
         (ofZ r) (ofZ y)
  /\ calculateProjectedCashFlows values
     = snd (fold_left
              (projectYear (CalculationResults.totalDebtService m)
                 (num (parseInt (replaceNonDigits (FormValues.ownerSalary values)))))
              (seq 0 projectedYears)
              (num (parseInt (replaceNonDigits (FormValues.ebitda values))),
               [- (ofZ a * (ofZ d / ofZ 100))])).
Proof.
  intros Ha Hd Hs Hr Hy Rpos Ypos Hrate Hyears m.
  assert (T : CalculationResults.totalDebtService m
              = calculateAnnualDebtService
                  (CalculationResults.bankLoan m + CalculationResults.sellerNote m)
                  (ofZ r) (ofZ y))
    by exact (totalDebtService_single_call values a d s r y Ha Hd Hs Hr Hy Rpos Ypos).
  split; [|split; [exact T|]].
  - destruct (annuity_factor rate years Hrate Hyears) as (k & Hk).
    cbn [add]. rewrite !Hk. cbn [add]. apply (f_equal Fin). ring.
  - rewrite T. unfold m, calculateMetrics, calculateProjectedCashFlows. cbv zeta.
    cbn [CalculationResults.bankLoan CalculationResults.sellerNote].
    rewrite Ha, Hd, Hs, Hr, Hy. reflexivity.
Qed.

Lemma debt_service_split_exact_witness :
  let m := calculateMetrics initialValues in
  calculateAnnualDebtService (ofZ 2250000) (ofZ 10) (ofZ 10)
  + calculateAnnualDebtService (ofZ 125000) (ofZ 10) (ofZ 10)
  = calculateAnnualDebtService (ofZ 2250000 + ofZ 125000) (ofZ 10) (ofZ 10)
  /\ CalculationResults.totalDebtService m
     = calculateAnnualDebtService
         (CalculationResults.bankLoan m + CalculationResults.sellerNote m)
         (ofZ 10) (ofZ 10).
Proof.
  cbv zeta.
  pose proof (debt_service_split_exact initialValues 2500000 5 5 10 10
                (Q2Qc (inject_Z 2250000)) (Q2Qc (inject_Z 125000))
                (Q2Qc (inject_Z 10)) 10) as H.
  cbv zeta in H.
  destruct H as (H1 & H2 & _); try reflexivity; try lia.
  split; [exact H1 | exact H2].
Defined.

End DebtService.

(** ** Debt service: the two paths in binary64 *)

Section DebtServiceBinary64.

Import PrimFloat.
Local Open Scope float_scope.

(** The power that the debt service of an 11% loan over 10 years needs:
    among the doubles, [0x1.7e9c7445e35e7p+1] (2.9891496030092983) is the
    nearest to the exact value of [(1 + 11 / 1200) ^ 120]. *)
Lemma nearest_power :
  let g := 0x1.7e9c7445e35e7p+1 in
  let p := (Binary64.toQ (1 + 11 / 1200) ^ 120)%Q in
  (Binary64.toQ (next_down g) + Binary64.toQ g < 2 * p)%Q
  /\ (2 * p < Binary64.toQ g + Binary64.toQ (next_up g))%Q.
Proof. cbv zeta. split; vm_compute; reflexivity. Qed.

(** C9, as stated, fails on the doubles of the program.  Asking price
    1,500,000 with 10% down and a 5% seller note, at 11% over 10 years: the
    two loans of 1,275,000 and 75,000 amortized separately and summed give
    223155.01829291313, the single call on 1,350,000 gives
    223155.01829291316, one unit in the last place more.  The two differ
    whichever of the 17 doubles nearest to the exact power [Math.pow]
    returns. *)
Lemma debt_service_split_binary64 :
  Binary64.calculateMetrics_totalDebtService
    (Binary64.returns 0x1.7e9c7445e35e7p+1) 1500000 10 5 11 10
  = 0x1.b3d982576c13dp+17
  /\ Binary64.calculateProjectedCashFlows_totalDebtService
       (Binary64.returns 0x1.7e9c7445e35e7p+1) 1500000 10 5 11 10
     = 0x1.b3d982576c13ep+17
  /\ Forall
       (fun g =>
          (Binary64.calculateMetrics_totalDebtService
             (Binary64.returns g) 1500000 10 5 11 10
           =? Binary64.calculateProjectedCashFlows_totalDebtService
                (Binary64.returns g) 1500000 10 5 11 10) = false)
       (Binary64.neighbours 8 0x1.7e9c7445e35e7p+1).
Proof.
  split; [vm_compute; reflexivity|].
  split; [vm_compute; reflexivity|].
  assert (H : forallb
                (fun g =>
                   negb (Binary64.calculateMetrics_totalDebtService
                           (Binary64.returns g) 1500000 10 5 11 10
                         =? Binary64.calculateProjectedCashFlows_totalDebtService
                              (Binary64.returns g) 1500000 10 5 11 10))
                (Binary64.neighbours 8 0x1.7e9c7445e35e7p+1) = true)
    by (vm_compute; reflexivity).
  rewrite forallb_forall in H. apply Forall_forall. intros g Hg.
  apply negb_true_iff, H, Hg.
Qed.

End DebtServiceBinary64.

(** ** The approximate internal rate of return *)

Section InternalRateOfReturn.

Local Open Scope js_scope.

Lemma num_cases i : (exists q, num i = Fin q) \/ num i = NaN.
Proof. destruct i; [left; eexists; reflexivity | right; reflexivity]. Qed.

Lemma percent_cases i :
  (exists q, num i / ofZ 100 = Fin q) \/ num i / ofZ 100 = NaN.
Proof. destruct i; [left; eexists; reflexivity | right; reflexivity]. Qed.

(** A down payment is a finite number or NaN, never an infinity. *)
Lemma downPayment_cases a p :
  (exists q, num a * (num p / ofZ 100) = Fin q)
  \/ num a * (num p / ofZ 100) = NaN.
Proof.
  destruct (num_cases a) as [[qa ->]| ->], (percent_cases p) as [[qp ->]| ->];
    cbn [mul]; eauto.
Qed.

Lemma mul_finite x y : isFinite (x * y) = true -> isFinite x = true.
Proof.
  destruct x as [a| | |], y as [b| | |]; cbn; try reflexivity; try discriminate.
  all: unfold signedInf; destruct (b ?= Q2Qc 0)%Qc; discriminate.
Qed.

(** A quotient by zero is never finite. *)
Lemma div_finite x b : isFinite (x / Fin b) = true -> b <> Q2Qc 0.
Proof.
  intros H ->. destruct x as [a| | |]; cbn in H; try discriminate.
  unfold signedInf in H. destruct (a ?= Q2Qc 0)%Qc; discriminate.
Qed.

Lemma div_NaN x : x / NaN = NaN.
Proof. destruct x; reflexivity. Qed.

Lemma abs_neg_zero_iff q : Math.abs (- Fin q) = ofZ 0 <-> q = Q2Qc 0.
Proof.
  cbn [neg Math.abs]. split.
  - intros H. injection H as H.
    destruct (Qccompare_spec (- q)%Qc (Q2Qc 0)) as [E|L|G];
      change (Q2Qc (inject_Z 0)) with (Q2Qc 0) in H; qc2q; lra.
  - intros ->. reflexivity.
Qed.

Lemma calculateIRR_projection values :
  calculateIRR (calculateProjectedCashFlows values) =
  sum (tl (calculateProjectedCashFlows values)) / ofZ 4
  / Math.abs (nth 0 (calculateProjectedCashFlows values) NaN) * ofZ 100.
Proof.
  unfold calculateIRR. cbv zeta. rewrite calculateProjectedCashFlows_length.
  reflexivity.
Qed.

(** C10: the internal rate of return is the mean of the later cash flows
    divided, without a guard, by the absolute value of the year-0 cash flow;
    when the down payment percentage is 0 that divisor is zero and the
    result is not a finite number; the result is a finite number only if the
    down payment is a number other than zero. *)
Theorem calculateIRR_needs_down_payment values :
  let askingPrice :=
    num (parseInt (replaceNonDigits (FormValues.askingPrice values))) in
  let downPayment :=
    askingPrice * (num (parseInt (FormValues.downPayment values)) / ofZ 100) in
  let cashFlows := calculateProjectedCashFlows values in
  let irr := CalculationResults.internalRateOfReturn (calculateMetrics values) in
  irr = sum (tl cashFlows) / ofZ 4 / Math.abs (- downPayment) * ofZ 100
  /\ (isFinite askingPrice = true ->
      parseInt (FormValues.downPayment values) = Some 0%Z ->
      Math.abs (nth 0 cashFlows NaN) = ofZ 0 /\ isFinite irr = false)
  /\ (isFinite irr = true -> exists q, downPayment = Fin q /\ q <> Q2Qc 0).
Proof.
  cbv zeta. rewrite calculateProjectedCashFlows_year0.
  set (downPayment :=
         num (parseInt (replaceNonDigits (FormValues.askingPrice values)))
         * (num (parseInt (FormValues.downPayment values)) / ofZ 100)).
  set (irr := CalculationResults.internalRateOfReturn (calculateMetrics values)).
  assert (Hirr : irr = sum (tl (calculateProjectedCashFlows values)) / ofZ 4
                       / Math.abs (- downPayment) * ofZ 100).
  { unfold irr, calculateMetrics. cbv zeta.
    cbn [CalculationResults.internalRateOfReturn].
    rewrite calculateIRR_projection, calculateProjectedCashFlows_year0.
    reflexivity. }
  assert (Honly : isFinite irr = true ->
                  exists q, downPayment = Fin q /\ q <> Q2Qc 0).
  { rewrite Hirr. intros F. apply mul_finite in F.
    destruct (downPayment_cases
                (parseInt (replaceNonDigits (FormValues.askingPrice values)))
                (parseInt (FormValues.downPayment values))) as [[q Hq]|Hq];
      fold downPayment in Hq; rewrite Hq in *.
    - exists q. split; [reflexivity|].
      cbn [neg Math.abs] in F. apply div_finite in F.
      intros ->. apply F. reflexivity.
    - cbn [neg Math.abs] in F. rewrite div_NaN in F. discriminate. }
  split; [exact Hirr | split; [|exact Honly]].
  intros Ha Hd.
  assert (Hz : Math.abs (- downPayment) = ofZ 0).
  { unfold downPayment. rewrite Hd.
    destruct (num (parseInt (replaceNonDigits _))) as [a| | |]; try discriminate.
    apply abs_neg_zero_iff. cbn. qc2q. field. }
  split; [exact Hz|].
  destruct (isFinite irr) eqn:F; [|reflexivity].
  destruct (Honly eq_refl) as (q & Hq & Hne).
  rewrite Hq in Hz. apply abs_neg_zero_iff in Hz. contradiction.
Qed.

Lemma calculateIRR_needs_down_payment_witness :
  (Math.abs (nth 0 (calculateProjectedCashFlows nothingDown) NaN) = ofZ 0
   /\ isFinite (CalculationResults.internalRateOfReturn
                  (calculateMetrics nothingDown)) = false)
  /\ exists q,
       num (parseInt (replaceNonDigits (FormValues.askingPrice initialValues)))
       * (num (parseInt (FormValues.downPayment initialValues)) / ofZ 100) = Fin q
       /\ q <> Q2Qc 0.
Proof.
  split.
  - apply (calculateIRR_needs_down_payment nothingDown); reflexivity.
  - apply (calculateIRR_needs_down_payment initialValues).
    vm_compute. reflexivity.
Defined.

End InternalRateOfReturn.

(** ** The input formatter *)

Section FormatterFacts.

Local Open Scope string_scope.

Lemma readDigits_uint d : forall a,
  readDigits 10 (NilEmpty.string_of_uint d) (Some (Z.of_N a)) = Some (Z.of_N (accumulate d a)).
Proof.
  induction d; intros a; cbn [NilEmpty.string_of_uint readDigits accumulate]; try reflexivity;
  change (digitValue 10 _) with (Some 0%Z) || change (digitValue 10 _) with (Some 1%Z)
   || change (digitValue 10 _) with (Some 2%Z) || change (digitValue 10 _) with (Some 3%Z)
   || change (digitValue 10 _) with (Some 4%Z) || change (digitValue 10 _) with (Some 5%Z)
   || change (digitValue 10 _) with (Some 6%Z) || change (digitValue 10 _) with (Some 7%Z)
   || change (digitValue 10 _) with (Some 8%Z) || change (digitValue 10 _) with (Some 9%Z);
  cbv iota beta; rewrite <- IHd; do 2 f_equal; lia.
Qed.

Lemma accumulate_acc d : forall p, accumulate d (Npos p) = Npos (Pos.of_uint_acc d p).
Proof.
  induction d; intros p; cbn [accumulate Pos.of_uint_acc]; try reflexivity;
    rewrite <- IHd; f_equal; lia.
Qed.

Lemma accumulate_of_uint d : accumulate d 0 = Pos.of_uint d.
Proof.
  induction d; cbn [accumulate Pos.of_uint]; try reflexivity;
    try (rewrite <- accumulate_acc; reflexivity).
  exact IHd.
Qed.

Lemma allDigits_uint d : allDigits (NilEmpty.string_of_uint d) = true.
Proof. induction d; cbn; auto. Qed.

Lemma readDigits_print (n : N) :
  readDigits 10 (NilZero.string_of_uint (N.to_uint n)) None = Some (Z.of_N n).
Proof.
  destruct n as [|p]; [reflexivity|].
  cbn [N.to_uint]. pose proof (Unsigned.to_uint_nonnil p) as Hn.
  pose proof (Unsigned.of_to p) as Hp.
  unfold NilZero.string_of_uint.
  destruct (Pos.to_uint p) as [|l|l|l|l|l|l|l|l|l|l] eqn:E; try contradiction;
    rewrite <- accumulate_of_uint in Hp; cbn [accumulate] in Hp;
    cbn [NilEmpty.string_of_uint readDigits];
    [ change (digitValue 10 _) with (Some 0%Z) | change (digitValue 10 _) with (Some 1%Z)
    | change (digitValue 10 _) with (Some 2%Z) | change (digitValue 10 _) with (Some 3%Z)
    | change (digitValue 10 _) with (Some 4%Z) | change (digitValue 10 _) with (Some 5%Z)
    | change (digitValue 10 _) with (Some 6%Z) | change (digitValue 10 _) with (Some 7%Z)
    | change (digitValue 10 _) with (Some 8%Z) | change (digitValue 10 _) with (Some 9%Z) ];
    cbv iota beta;
    [ change 0%Z with (Z.of_N (0 * 10)) | change 1%Z with (Z.of_N (0 * 10 + 1))
    | change 2%Z with (Z.of_N (0 * 10 + 2)) | change 3%Z with (Z.of_N (0 * 10 + 3))
    | change 4%Z with (Z.of_N (0 * 10 + 4)) | change 5%Z with (Z.of_N (0 * 10 + 5))
    | change 6%Z with (Z.of_N (0 * 10 + 6)) | change 7%Z with (Z.of_N (0 * 10 + 7))
    | change 8%Z with (Z.of_N (0 * 10 + 8)) | change 9%Z with (Z.of_N (0 * 10 + 9)) ];
    rewrite readDigits_uint, Hp; reflexivity.
Qed.

Lemma allDigits_print n : allDigits (NilZero.string_of_uint (N.to_uint n)) = true.
Proof.
  unfold NilZero.string_of_uint. destruct (N.to_uint n) eqn:E; try reflexivity;
   rewrite <- E; apply allDigits_uint.
Qed.

Lemma replaceNonDigits_fixed s : allDigits s = true -> replaceNonDigits s = s.
Proof.
  induction s as [|c r IH]; [reflexivity|].
  cbn [allDigits replaceNonDigits]. intros H. apply andb_true_iff in H.
  destruct H as [Hc Hr]. rewrite Hc, IH by exact Hr. reflexivity.
Qed.

Lemma replaceNonDigits_app a b :
  replaceNonDigits (a ++ b) = replaceNonDigits a ++ replaceNonDigits b.
Proof.
  induction a as [|c r IH]; [reflexivity|].
  cbn [append replaceNonDigits]. destruct (isDigit c); cbn [append]; rewrite IH; reflexivity.
Qed.

Lemma replaceNonDigits_groupThousands s :
  allDigits s = true -> replaceNonDigits (groupThousands s) = s.
Proof.
  induction s as [|c r IH]; [reflexivity|].
  cbn [allDigits groupThousands replaceNonDigits]. intros H.
  apply andb_true_iff in H. destruct H as [Hc Hr]. rewrite Hc. f_equal.
  destruct (_ && _); [|exact (IH Hr)].
  rewrite replaceNonDigits_app. cbn. exact (IH Hr).
Qed.

Lemma readDigits_started s : forall a,
  allDigits s = true -> exists z, readDigits 10 s (Some a) = Some z.
Proof.
  induction s as [|c r IH]; intros a H; [eexists; reflexivity|].
  cbn [allDigits] in H. apply andb_true_iff in H. destruct H as [Hc Hr].
  cbn [readDigits]. destruct (digitValue_digit c Hc) as (d & -> & _).
  apply IH, Hr.
Qed.

Lemma parseInt_digits_None s :
  parseInt (replaceNonDigits s) = None <-> replaceNonDigits s = "".
Proof.
  pose proof (replaceNonDigits_allDigits s) as H.
  rewrite parseInt_allDigits by exact H.
  destruct (replaceNonDigits s) as [|c r]; [split; reflexivity|].
  split; [|discriminate]. intros E. exfalso.
  cbn [allDigits] in H. apply andb_true_iff in H. destruct H as [Hc Hr].
  cbn [readDigits] in E. destruct (digitValue_digit c Hc) as (d & Hd & _).
  rewrite Hd in E. destruct (readDigits_started r d Hr) as (z & Hz).
  rewrite Hz in E. discriminate.
Qed.

Lemma parseInt_print n :
  parseInt (NilZero.string_of_uint (N.to_uint n)) = Some (Z.of_N n).
Proof.
  rewrite parseInt_allDigits by apply allDigits_print.
  rewrite readDigits_print. cbn [option_map]. f_equal. lia.
Qed.

Lemma parseInt_formatEnUS (z : Z) :
  (0 <= z)%Z -> parseInt (replaceNonDigits (formatEnUS (Some z))) = Some z.
Proof.
  intros Hz. unfold formatEnUS. destruct (Z.ltb_spec z 0) as [L|L]; [lia|].
  cbn [append]. rewrite replaceNonDigits_groupThousands by apply allDigits_print.
  rewrite parseInt_print. f_equal. lia.
Qed.

(** X1: for an amount up to [MAX_SAFE_INTEGER], which the program holds and
    prints digit for digit, formatting keeps the number the amount parses
    to, so the engine reads from the formatted field what the user typed;
    the formatted text is empty exactly when the input has no digit, and
    formatting twice is the same as formatting once. *)
Theorem formatNumber_roundtrip value :
  (forall z, parseInt (replaceNonDigits value) = Some z ->
             (z <= MAX_SAFE_INTEGER)%Z) ->
  parseInt (replaceNonDigits (formatNumber value)) = parseInt (replaceNonDigits value)
  /\ (formatNumber value = "" <-> replaceNonDigits value = "")
  /\ formatNumber (formatNumber value) = formatNumber value.
Proof.
  intros _.
  assert (R : parseInt (replaceNonDigits (formatNumber value))
              = parseInt (replaceNonDigits value)).
  { unfold formatNumber. cbv zeta.
    destruct (String.eqb_spec (replaceNonDigits value) "") as [E|E].
    - rewrite E. reflexivity.
    - pose proof (parseInt_digits_nonneg value) as Hn.
      destruct (parseInt (replaceNonDigits value)) as [z|] eqn:P.
      + apply parseInt_formatEnUS, Hn.
      + apply parseInt_digits_None in P. contradiction. }
  assert (N : formatNumber value = "" <-> replaceNonDigits value = "").
  { split.
    - intros H. apply parseInt_digits_None. rewrite <- R, H. reflexivity.
    - intros H. unfold formatNumber. rewrite H. reflexivity. }
  split; [exact R | split; [exact N|]].
  unfold formatNumber at 1 3. cbv zeta. rewrite R.
  destruct (String.eqb_spec (replaceNonDigits value) "") as [E|E].
  - unfold formatNumber. rewrite E. reflexivity.
  - destruct (String.eqb_spec (replaceNonDigits (formatNumber value)) "") as [F|F];
      [|reflexivity].
    exfalso. apply E, parseInt_digits_None. rewrite <- R.
    apply parseInt_digits_None. exact F.
Qed.

Lemma formatNumber_roundtrip_witness :
  formatNumber "$2500000" = "2,500,000"
  /\ parseInt (replaceNonDigits (formatNumber "$2500000")) = Some 2500000%Z
  /\ formatNumber (formatNumber "$2500000") = formatNumber "$2500000".
Proof.
  split; [reflexivity|].
  assert (B : forall z, parseInt (replaceNonDigits "$2500000") = Some z ->
                        (z <= MAX_SAFE_INTEGER)%Z).
  { intros z H. vm_compute in H. injection H as <-. unfold MAX_SAFE_INTEGER. lia. }
  destruct (formatNumber_roundtrip "$2500000" B) as (R & _ & I).
  split; [rewrite R; reflexivity | exact I].
Defined.

End FormatterFacts.

(** ** How the form fields are read *)

Section FieldReading.

Local Open Scope string_scope.

Lemma readDigits_stops ds rest : forall acc,
  allDigits ds = true ->
  readDigits 10 (ds ++ "." ++ rest) acc = readDigits 10 ds acc.
Proof.
  induction ds as [|c r IH]; intros acc H; [reflexivity|].
  cbn [allDigits] in H. apply andb_true_iff in H. destruct H as [Hc Hr].
  cbn [append readDigits]. destruct (digitValue 10 c); [|reflexivity].
  apply IH, Hr.
Qed.

Lemma parseInt_digits_then_point ds rest :
  allDigits ds = true ->
  parseInt (ds ++ "." ++ rest)
  = option_map (Z.mul 1) (readDigits 10 (ds ++ "." ++ rest) None).
Proof.
  destruct ds as [|c r]; [reflexivity|].
  cbn [allDigits]. intros H. apply andb_true_iff in H. destruct H as [Hc Hr].
  destruct c as [[] [] [] [] [] [] [] []]; try discriminate Hc; try reflexivity.
  destruct r as [|c' r']; [reflexivity|].
  cbn [allDigits] in Hr. apply andb_true_iff in Hr. destruct Hr as [Hc' Hr'].
  destruct c' as [[] [] [] [] [] [] [] []]; try discriminate Hc'; reflexivity.
Qed.

Lemma parseInt_fraction_ignored ds rest :
  allDigits ds = true -> parseInt (ds ++ "." ++ rest) = parseInt ds.
Proof.
  intros H.
  rewrite parseInt_digits_then_point, readDigits_stops, parseInt_allDigits
    by exact H.
  reflexivity.
Qed.

(** X2: the interest rate, the loan term and the two financing percentages
    are read by [parseInt] alone, which stops at a decimal point: whatever
    follows the point changes nothing in the computed metrics (an interest
    rate entered as 10.5 is computed as 10). *)
Theorem percentage_fraction_ignored values ds rest :
  allDigits ds = true ->
  calculateMetrics (withInterestRate values (ds ++ "." ++ rest))
  = calculateMetrics (withInterestRate values ds)
  /\ calculateMetrics (withLoanTerm values (ds ++ "." ++ rest))
     = calculateMetrics (withLoanTerm values ds)
  /\ calculateMetrics (withDownPayment values (ds ++ "." ++ rest))
     = calculateMetrics (withDownPayment values ds)
  /\ calculateMetrics (withSellerNote values (ds ++ "." ++ rest))
     = calculateMetrics (withSellerNote values ds).
Proof.
  intros H. pose proof (parseInt_fraction_ignored ds rest H) as P.
  destruct values.
  repeat split;
    unfold calculateMetrics, calculateProjectedCashFlows, withInterestRate,
      withLoanTerm, withDownPayment, withSellerNote;
    cbn [FormValues.askingPrice FormValues.revenue FormValues.ebitda
         FormValues.ownerSalary FormValues.recurringRevenue
         FormValues.topCustomerRevenue FormValues.yearsInBusiness
         FormValues.downPayment FormValues.sellerNote FormValues.interestRate
         FormValues.loanTerm FormValues.industry];
    rewrite P; reflexivity.
Qed.

Lemma percentage_fraction_ignored_witness :
  calculateMetrics (withInterestRate initialValues ("10" ++ "." ++ "5"))
  = calculateMetrics (withInterestRate initialValues "10").
Proof.
  apply (percentage_fraction_ignored initialValues "10" "5"). reflexivity.
Defined.

(** X3: a currency field is read by its digits alone: a character that is
    not a digit changes nothing wherever it stands (a minus sign, a comma, a
    decimal point), and the amount read is NaN or an integer from 0 on,
    never a negative number. *)
Theorem currency_field_digits_only (a b : string) (c : ascii) :
  isDigit c = false ->
  parseInt (replaceNonDigits (a ++ String c b)) = parseInt (replaceNonDigits (a ++ b))
  /\ match parseInt (replaceNonDigits (a ++ String c b)) with
     | Some z => (0 <= z)%Z
     | None => True
     end.
Proof.
  intros H. split; [|apply parseInt_digits_nonneg].
  rewrite !replaceNonDigits_app. cbn [replaceNonDigits]. rewrite H. reflexivity.
Qed.

Lemma currency_field_digits_only_witness :
  parseInt (replaceNonDigits ("-2" ++ String "," "500.75"))
  = parseInt (replaceNonDigits ("-2" ++ "500.75"))
  /\ match parseInt (replaceNonDigits ("-2" ++ String "," "500.75")) with
     | Some z => (0 <= z)%Z
     | None => True
     end.
Proof.
  apply (currency_field_digits_only "-2" "500.75" ","). reflexivity.
Defined.

End FieldReading.

(** ** Edge cases of the debt service *)

Section DebtServiceEdges.

Local Open Scope js_scope.

Lemma closed_Fin (a b : Qc) : (a == b)%Q -> Fin a = Fin b.
Proof. intros H. f_equal. apply Qc_is_canon, H. Qed.

Lemma zero_monthly_rate : ofZ 0 / ofZ 1200 = ofZ 0.
Proof. apply closed_Fin. reflexivity. Qed.

Lemma mul_zero_one : ofZ 0 * ofZ 1 = ofZ 0.
Proof. apply closed_Fin. reflexivity. Qed.

Lemma mul_Fin_zero p : Fin p * ofZ 0 = ofZ 0.
Proof. cbn. apply closed_Fin. qc2q. ring. Qed.

Lemma add_NaN_r x : x + NaN = NaN.
Proof. destruct x; reflexivity. Qed.

Lemma sub_NaN_r x : x - NaN = NaN.
Proof. destruct x; reflexivity. Qed.

(** 1 raised to a number of payments is 1, or NaN when the term is NaN. *)
Lemma pow_one_integer (i : integer) :
  Math.pow (ofZ 1) (num i * ofZ 12) = ofZ 1
  \/ Math.pow (ofZ 1) (num i * ofZ 12) = NaN.
Proof.
  destruct i as [z|]; [left|right; reflexivity].
  cbn [num]. rewrite ofZ_mul. unfold Math.pow, ofZ. rewrite asInteger_ofZ.
  destruct (z * 12)%Z as [|p|p]; try reflexivity.
  - cbn [Math.powZ]. apply (f_equal Fin), Q2Qc_eq_iff.
    change (this (Q2Qc (inject_Z 1))) with 1%Q. apply Qpower_1.
  - cbn [Math.powZ]. change (Q2Qc (inject_Z 1) ?= Q2Qc 0)%Qc with Gt.
    cbv iota. apply (f_equal Fin), Q2Qc_eq_iff.
    change (this (Q2Qc (inject_Z 1))) with 1%Q. apply Qpower_1.
Qed.

Lemma calculateAnnualDebtService_zero_rate (principal : number) (years : integer) :
  calculateAnnualDebtService principal (ofZ 0) (num years) = NaN.
Proof.
  unfold calculateAnnualDebtService. cbv zeta.
  rewrite zero_monthly_rate, add_one_zero.
  destruct (pow_one_integer years) as [-> | ->].
  - rewrite mul_zero_one. destruct principal as [p| | |]; try reflexivity.
    rewrite mul_Fin_zero. reflexivity.
  - destruct principal; reflexivity.
Qed.

(** X4: the amortization formula is not guarded against a zero rate: when
    the interest rate parses to 0 the debt service is 0/0, and the total
    debt service, the debt service coverage ratio, every projected cash flow
    after year 0, the net present value and the internal rate of return of
    the metrics are all NaN, whatever the other fields are. *)
Theorem zero_interest_rate values :
  parseInt (FormValues.interestRate values) = Some 0%Z ->
  let m := calculateMetrics values in
  CalculationResults.totalDebtService m = NaN
  /\ CalculationResults.debtServiceCoverageRatio m = NaN
  /\ (forall year, (1 <= year <= 4)%nat ->
        nth year (CalculationResults.projectedCashFlows m) (ofZ 0) = NaN)
  /\ CalculationResults.netPresentValue m = NaN
  /\ CalculationResults.internalRateOfReturn m = NaN.
Proof.
  intros H. cbv zeta. unfold calculateMetrics. cbv zeta.
  cbn [CalculationResults.totalDebtService
       CalculationResults.debtServiceCoverageRatio
       CalculationResults.projectedCashFlows CalculationResults.netPresentValue
       CalculationResults.internalRateOfReturn].
  unfold calculateProjectedCashFlows. cbv zeta. rewrite projection_loop. cbv zeta.
  rewrite H. cbn [num]. rewrite !calculateAnnualDebtService_zero_rate.
  cbn [add]. rewrite !sub_NaN_r.
  cbn [sub add neg Math.round app snd].
  split; [reflexivity|]. split; [apply div_NaN|].
  split; [|split].
  - intros year Hy.
    destruct year as [|[|[|[|[|year]]]]]; try lia; reflexivity.
  - unfold calculateNPV. cbn [List.length seq combine fold_left div].
    rewrite !add_NaN_r. reflexivity.
  - unfold calculateIRR. cbn [tl fold_left]. rewrite !add_NaN_r. reflexivity.
Qed.

Lemma zero_interest_rate_witness :
  CalculationResults.totalDebtService
    (calculateMetrics (withInterestRate initialValues "0")) = NaN
  /\ CalculationResults.internalRateOfReturn
       (calculateMetrics (withInterestRate initialValues "0")) = NaN.
Proof.
  pose proof (zero_interest_rate (withInterestRate initialValues "0") eq_refl)
    as (H1 & _ & _ & _ & H5).
  split; [exact H1 | exact H5].
Defined.

End DebtServiceEdges.

(** ** What a loan costs *)

Section Repayment.

Local Open Scope js_scope.

Lemma Qpower_succ_nat (a : Q) (n : nat) :
  (0 < a)%Q -> (a ^ Z.of_nat (S n) == a ^ Z.of_nat n * a)%Q.
Proof.
  intros Ha. rewrite Nat2Z.inj_succ. unfold Z.succ.
  rewrite Qpower_plus by lra. rewrite Qpower_1_r. reflexivity.
Qed.

Lemma pow_value (a : Qc) (n : Z) :
  (0 < n)%Z -> Math.pow (Fin a) (ofZ n) = Fin (Q2Qc (a ^ n)).
Proof.
  intros Hn. unfold Math.pow, ofZ. rewrite asInteger_ofZ.
  destruct n as [|p|p]; try lia. reflexivity.
Qed.

(** From the first period on, compound growth with one period's interest on
    top stays within the number of periods times the interest on the final
    amount. *)
Lemma annuity_bound (m : Q) (n : nat) :
  (0 <= m)%Q ->
  (((1 + m) ^ Z.of_nat (S n) - 1) * (1 + m)
   <= inject_Z (Z.of_nat (S n)) * m * (1 + m) ^ Z.of_nat (S n))%Q.
Proof.
  intros Hm. induction n as [|n IH].
  - change (Z.of_nat 1) with 1%Z. rewrite Qpower_1_r. unfold inject_Z. lra.
  - rewrite (Qpower_succ_nat (1 + m) (S n)) by lra.
    assert (G : (1 <= (1 + m) ^ Z.of_nat (S n))%Q) by (apply Qpower_1_le; [lra | lia]).
    set (g := ((1 + m) ^ Z.of_nat (S n))%Q) in *.
    rewrite (Nat2Z.inj_succ (S n)). unfold Z.succ. rewrite inject_Z_plus.
    assert (N : (0 <= inject_Z (Z.of_nat (S n)))%Q).
    { change 0%Q with (inject_Z 0). rewrite <- Zle_Qle. lia. }
    set (k := inject_Z (Z.of_nat (S n))) in *. change (inject_Z 1) with 1%Q.
    nra.
Qed.

(** X5: for a principal between 1 and [MAX_SAFE_INTEGER], a rate of 1 to 100
    whole percent and a term of 1 to 100 whole years, the annual debt
    service paid over the whole term repays the principal and at least one
    month's interest on it: a margin of more than 0.08% of the principal,
    far above what the rounding of the doubles can take away, so the loan is
    never repaid for less than was borrowed. *)
Theorem total_repayment_covers_principal (principal : Qc) (rate years : Z) :
  (Q2Qc 1 <= principal)%Qc ->
  (principal <= Q2Qc (inject_Z MAX_SAFE_INTEGER))%Qc ->
  (1 <= rate <= 100)%Z -> (1 <= years <= 100)%Z ->
  let total :=
    calculateAnnualDebtService (Fin principal) (ofZ rate) (ofZ years) * ofZ years in
  le (Fin principal + Fin principal * (ofZ rate / ofZ 1200)) total = true
  /\ le (Fin principal) total = true.
Proof.
  intros HP _ Hr Hy. cbv zeta. unfold calculateAnnualDebtService. cbv zeta.
  rewrite ofZ_mul.
  assert (Hm : ofZ rate / ofZ 1200
               = Fin (Q2Qc (inject_Z rate) / Q2Qc (inject_Z 1200))%Qc).
  { apply div_Fin_nonzero. intros E. discriminate E. }
  rewrite Hm. cbn [add ofZ]. rewrite pow_value by lia.
  set (m := (Q2Qc (inject_Z rate) / Q2Qc (inject_Z 1200))%Qc).
  assert (M : (0 < m)%Q).
  { unfold m. qc2q. apply Qmult_lt_0_compat; [|reflexivity].
    unfold Qlt. cbn [Qnum Qden]. lia. }
  pose proof (annuity_bound m (Z.to_nat (years * 12 - 1)) (Qlt_le_weak _ _ M)) as B.
  replace (Z.of_nat (S (Z.to_nat (years * 12 - 1)))) with (years * 12)%Z in B by lia.
  assert (G : (1 < (1 + m) ^ (years * 12))%Q) by (apply Qpower_1_lt; [lra | lia]).
  assert (E1 : (this (Q2Qc (inject_Z 1) + m)%Qc == 1 + m)%Q).
  { unfold Qcplus. cbn [this Q2Qc]. rewrite !Qred_correct. reflexivity. }
  set (g := Q2Qc (this (Q2Qc (inject_Z 1) + m)%Qc ^ (years * 12))).
  assert (Eg : (this g == (1 + m) ^ (years * 12))%Q).
  { unfold g. cbn [this Q2Qc]. rewrite Qred_correct, E1. reflexivity. }
  rewrite <- Eg in B, G. clearbody g. clear Eg E1.
  unfold ofZ. cbn [mul sub neg add].
  rewrite div_Fin_nonzero by (intros E; qc2q; lra).
  cbn [mul add].
  rewrite inject_Z_mult in B.
  assert (Y : (0 < inject_Z years)%Q).
  { change 0%Q with (inject_Z 0). rewrite <- Zlt_Qlt. lia. }
  assert (HP' : (1 <= principal)%Q) by exact HP.
  assert (PM : (0 <= principal * m)%Q) by (apply Qmult_le_0_compat; lra).
  assert (K : (principal * (1 + m)
               <= principal * (m * g) * / (g + - (1)) * 12 * (years # 1))%Q).
  { change (inject_Z 12) with 12%Q in *. change (inject_Z 1) with 1%Q in *.
    change (years # 1)%Q with (inject_Z years).
    set (y := inject_Z years) in *. set (d := (g + - (1))%Q).
    assert (D : (0 < d)%Q) by (unfold d; lra).
    assert (T : (0 < / d)%Q) by (apply Qinv_lt_0_compat; exact D).
    assert (DT : (d * / d == 1)%Q) by (apply Qmult_inv_r; lra).
    set (t := (/ d)%Q) in *.
    assert (B' : (d * (1 + m) <= y * 12 * m * g)%Q) by (unfold d; lra).
    assert (K : (1 + m <= y * 12 * m * g * t)%Q).
    { setoid_replace (1 + m)%Q with (d * (1 + m) * t)%Q
        by (setoid_replace (d * (1 + m) * t)%Q with ((d * t) * (1 + m))%Q by ring;
            rewrite DT; ring).
      apply Qmult_le_compat_r; [exact B' | lra]. }
    setoid_replace (principal * (m * g) * t * 12 * y)%Q
      with (principal * (y * 12 * m * g * t))%Q by ring.
    nra. }
  split; apply le_Fin; qc2q; lra.
Qed.

Lemma total_repayment_covers_principal_witness :
  le (ofZ 2375000 + ofZ 2375000 * (ofZ 10 / ofZ 1200))
     (calculateAnnualDebtService (ofZ 2375000) (ofZ 10) (ofZ 10) * ofZ 10) = true
  /\ le (ofZ 2375000)
        (calculateAnnualDebtService (ofZ 2375000) (ofZ 10) (ofZ 10) * ofZ 10) = true.
Proof.
  apply (total_repayment_covers_principal (Q2Qc (inject_Z 2375000)) 10 10).
  - vm_compute. discriminate.
  - vm_compute. discriminate.
  - lia.
  - lia.
Defined.

End Repayment.

(** ** Edge cases of the two cash-flow measures *)

Section SeriesEdges.

Local Open Scope js_scope.

(** X6: on a series with fewer than two entries the approximate rate of
    return is NaN: an empty array has no year-0 entry, and a single entry
    leaves 0/0 for the mean of the later cash flows. *)
Theorem calculateIRR_short_series cashFlows :
  (List.length cashFlows <= 1)%nat -> calculateIRR cashFlows = NaN.
Proof.
  destruct cashFlows as [|c [|c' l]]; cbn [List.length]; intros H; try lia.
  - reflexivity.
  - unfold calculateIRR. cbn [tl fold_left List.length nth].
    change (ofZ 0 / (ofNat 1 - ofZ 1)) with NaN. destruct c; reflexivity.
Qed.

Lemma calculateIRR_short_series_witness :
  calculateIRR [ofZ (-125000)] = NaN.
Proof.
  apply (calculateIRR_short_series [ofZ (-125000)]). cbn. lia.
Defined.

Lemma pow_nat_ge_one (a : Qc) (k : nat) :
  (Q2Qc 1 <= a)%Qc ->
  exists g, Math.pow (Fin a) (ofNat k) = Fin g /\ (Q2Qc 1 <= g)%Qc.
Proof.
  intros Ha. unfold Math.pow, ofNat, ofZ. rewrite asInteger_ofZ.
  destruct (Z.of_nat k) as [|p|p] eqn:E; try lia.
  - exists (Q2Qc 1). split; [reflexivity | apply Qcle_refl].
  - cbn [Math.powZ]. eexists. split; [reflexivity|].
    unfold Qcle in *. cbn [this Q2Qc] in *. rewrite ?Qred_correct.
    apply Qpower_1_le; [exact Ha | lia].
Qed.

(** A cash flow that is not negative, divided by a factor of at least 1, does
    not grow and does not become negative. *)
Lemma discounted_le (c g : Qc) :
  (Q2Qc 0 <= c)%Qc -> (Q2Qc 1 <= g)%Qc ->
  exists d, Fin c / Fin g = Fin d /\ (Q2Qc 0 <= d)%Qc /\ (d <= c)%Qc.
Proof.
  intros Hc Hg. rewrite div_Fin_nonzero by (intros E; qc2q; lra).
  eexists. split; [reflexivity|].
  unfold Qcle, Qcdiv, Qcmult, Qcinv in *. cbn [this Q2Qc] in *.
  rewrite ?Qred_correct in *.
  assert (T : (0 < / g)%Q) by (apply Qinv_lt_0_compat; lra).
  assert (GT : (g * / g == 1)%Q) by (apply Qmult_inv_r; lra).
  set (t := (/ g)%Q) in *. split; nra.
Qed.

Lemma calculateNPV_loop_le (r : Qc) (rest : list Qc) :
  (Q2Qc 0 <= r)%Qc -> Forall (fun c => Q2Qc 0 <= c)%Qc rest ->
  forall k (acc acc' : Qc), (acc <= acc')%Qc ->
  exists x y,
    fold_left
      (fun npv '(year, cashFlow) =>
         npv + cashFlow / Math.pow (ofZ 1 + Fin r) (ofNat year))
      (combine (seq k (List.length (map Fin rest))) (map Fin rest)) (Fin acc)
    = Fin x
    /\ fold_left add (map Fin rest) (Fin acc') = Fin y
    /\ (x <= y)%Qc.
Proof.
  intros Hr H. induction H as [|c l Hc Hl IH]; intros k acc acc' Hacc.
  - exists acc, acc'. auto.
  - cbn [map List.length seq combine fold_left].
    destruct (pow_nat_ge_one (Q2Qc (inject_Z 1) + r)%Qc k) as (g & Hg & G1).
    { qc2q. lra. }
    change (ofZ 1 + Fin r) with (Fin (Q2Qc (inject_Z 1) + r)%Qc). rewrite Hg.
    destruct (discounted_le c g Hc G1) as (d & -> & D0 & D1).
    cbn [add]. apply IH. qc2q. lra.
Qed.

(** X7: when the discount rate and the cash flows after year 0 are not
    negative, the net present value never exceeds the simple sum of the
    series; the year-0 entry, of either sign, counts in full. *)
Theorem calculateNPV_at_most_sum (c0 r : Qc) (rest : list Qc) :
  (Q2Qc 0 <= r)%Qc -> Forall (fun c => Q2Qc 0 <= c)%Qc rest ->
  le (calculateNPV (Fin c0 :: map Fin rest) (Fin r))
     (sum (Fin c0 :: map Fin rest)) = true.
Proof.
  intros Hr H. unfold calculateNPV, sum.
  cbn [List.length seq combine fold_left].
  change (Math.pow (ofZ 1 + Fin r) (ofNat 0)) with (ofZ 1). rewrite div_one.
  change (ofZ 0 + Fin c0) with (Fin (Q2Qc (inject_Z 0) + c0)%Qc).
  destruct (calculateNPV_loop_le r rest Hr H 1 _ _
              (Qcle_refl (Q2Qc (inject_Z 0) + c0)%Qc))
    as (x & y & -> & -> & Hxy).
  apply le_Fin, Hxy.
Qed.

Lemma calculateNPV_at_most_sum_witness :
  le (calculateNPV (Fin (Q2Qc (-125000 # 1))
                    :: map Fin [Q2Qc (52970 # 1); Q2Qc (110930 # 1)])
        (Fin (Q2Qc (15 # 100))))
     (sum (Fin (Q2Qc (-125000 # 1))
           :: map Fin [Q2Qc (52970 # 1); Q2Qc (110930 # 1)])) = true.
Proof.
  apply (calculateNPV_at_most_sum (Q2Qc (-125000 # 1)) (Q2Qc (15 # 100))
           [Q2Qc (52970 # 1); Q2Qc (110930 # 1)]).
  - vm_compute. discriminate.
  - repeat constructor; vm_compute; discriminate.
Defined.

End SeriesEdges.

(** ** The qualitative scores on realistic amounts *)

Section ScoreCollapse.

Local Open Scope js_scope.

Lemma inject_Z_le (a b : Z) : (a <= b)%Z -> (a # 1 <= b # 1)%Q.
Proof. intros H. rewrite Zle_Qle in H. exact H. Qed.

Lemma inject_Z_lt (a b : Z) : (a < b)%Z -> (a # 1 < b # 1)%Q.
Proof. intros H. rewrite Zlt_Qlt in H. exact H. Qed.

Lemma currency_nonneg s z :
  parseInt (replaceNonDigits s) = Some z -> (0 <= z)%Z.
Proof.
  intros H. pose proof (parseInt_digits_nonneg s) as P. rewrite H in P. exact P.
Qed.

Lemma clamp_nonpos (s : Qc) : (s <= Q2Qc 0)%Qc -> clamp (Fin s) = ofZ 0.
Proof.
  intros H. unfold clamp, gt, ofZ. cmp_cases; try reflexivity; qc_solve.
Qed.

Lemma clamp_inside (s : Qc) :
  (Q2Qc 0 <= s)%Qc -> (s <= Q2Qc (inject_Z 100))%Qc -> clamp (Fin s) = Fin s.
Proof.
  intros H0 H1. unfold clamp, gt, ofZ. cmp_cases; try reflexivity; qc_solve.
Qed.

(** X8: the risk score subtracts raw dollar amounts from 100, so it is 0 as
    soon as the recurring revenue reaches $220 or the revenue reaches
    $2,000,074, whatever the industry, the earnings and the price. *)
Theorem calculateRiskScore_zero values (a r q : Z) :
  parseInt (replaceNonDigits (FormValues.askingPrice values)) = Some a ->
  parseInt (replaceNonDigits (FormValues.revenue values)) = Some r ->
  parseInt (replaceNonDigits (FormValues.recurringRevenue values)) = Some q ->
  (220 <= q \/ 2000074 <= r)%Z ->
  calculateRiskScore values = ofZ 0.
Proof.
  intros Ha Hr Hq Hbig.
  pose proof (inject_Z_le _ _ (currency_nonneg _ _ Ha)) as A.
  pose proof (inject_Z_le _ _ (currency_nonneg _ _ Hr)) as R.
  pose proof (inject_Z_le _ _ (currency_nonneg _ _ Hq)) as Q.
  assert (B : (220 # 1 <= q # 1 \/ 2000074 # 1 <= r # 1)%Q).
  { destruct Hbig as [H|H]; [left|right]; apply inject_Z_le, H. }
  unfold calculateRiskScore. cbv zeta. rewrite clamp_max_min, Ha, Hr, Hq.
  cbn [num]. unfold gt, Math.min, ofZ, dec.
  destruct (lt _ (_ / _)); split_industry; cbn [mul sub add neg];
    cmp_cases; cbn [mul sub add neg]; apply clamp_nonpos; qc2q; lra.
Qed.

Lemma calculateRiskScore_zero_witness :
  calculateRiskScore initialValues = ofZ 0.
Proof.
  apply (calculateRiskScore_zero initialValues 2500000 3000000 900000);
    try reflexivity.
  left. lia.
Defined.

(** X9: the competitive threat adds five times the asking price in dollars,
    so it stands at its cap of 100 for every asking price from $20 on. *)
Theorem calculateCompetitiveThreat_saturates values (a q : Z) :
  parseInt (replaceNonDigits (FormValues.askingPrice values)) = Some a ->
  parseInt (replaceNonDigits (FormValues.recurringRevenue values)) = Some q ->
  (20 <= a)%Z ->
  calculateCompetitiveThreat values = ofZ 100.
Proof.
  intros Ha Hq Hbig.
  pose proof (inject_Z_le _ _ Hbig) as A.
  pose proof (inject_Z_le _ _ (currency_nonneg _ _ Hq)) as Q.
  unfold calculateCompetitiveThreat. cbv zeta. rewrite Ha, Hq.
  cbn [num]. unfold Math.min, ofZ.
  split_industry; cbn [mul add]; cmp_cases; try reflexivity; qc_solve.
Qed.

Lemma calculateCompetitiveThreat_saturates_witness :
  calculateCompetitiveThreat initialValues = ofZ 100.
Proof.
  apply (calculateCompetitiveThreat_saturates initialValues 2500000 900000);
    try reflexivity.
  lia.
Defined.

(** X10: once the asking price is at least $10 and the recurring revenue at
    least $15, both dollar terms of the market position score sit at their
    caps, and the score depends on the industry alone: 50 for tech, 40 for
    retail, 30 for manufacturing and 10 for every other industry. *)
Theorem calculateMarketScore_by_industry values (a q : Z) :
  parseInt (replaceNonDigits (FormValues.askingPrice values)) = Some a ->
  parseInt (replaceNonDigits (FormValues.recurringRevenue values)) = Some q ->
  (10 <= a)%Z -> (15 <= q)%Z ->
  calculateMarketScore values
  = byIndustry (FormValues.industry values) (ofZ 50) (ofZ 40) (ofZ 30) (ofZ 10).
Proof.
  intros Ha Hq HA HQ.
  pose proof (inject_Z_le _ _ HA) as A.
  pose proof (inject_Z_le _ _ HQ) as Q.
  unfold calculateMarketScore, byIndustry. cbv zeta.
  rewrite clamp_max_min, Ha, Hq. cbn [num]. unfold Math.min, ofZ.
  split_industry; cbn [mul add sub neg]; cmp_cases; cbn [mul add sub neg];
    (rewrite clamp_inside; [apply (f_equal Fin) | |]); qc2q; lra.
Qed.

Lemma calculateMarketScore_by_industry_witness :
  calculateMarketScore initialValues = ofZ 10.
Proof.
  apply (calculateMarketScore_by_industry initialValues 2500000 900000);
    try reflexivity; lia.
Defined.

(** X11: the growth potential is a raw dollar figure without a cap: it is at
    least 0.69 times the recurring revenue in dollars (the two weights of
    the recurring revenue add up to 0.7), so it is above 100 for every
    recurring revenue from $150 on, whatever the industry. *)
Theorem calculateGrowthPotential_uncapped values (q : Z) :
  parseInt (replaceNonDigits (FormValues.recurringRevenue values)) = Some q ->
  le (ofZ q * dec 69 100) (calculateGrowthPotential values) = true
  /\ ((150 <= q)%Z -> gt (calculateGrowthPotential values) (ofZ 100) = true).
Proof.
  intros Hq.
  pose proof (inject_Z_le _ _ (currency_nonneg _ _ Hq)) as Q.
  unfold calculateGrowthPotential. cbv zeta. rewrite Hq. cbn [num].
  unfold gt, ofZ, dec. split.
  - split_industry; cbn [mul add]; apply le_Fin; qc2q; lra.
  - intros Hbig. pose proof (inject_Z_le _ _ Hbig) as B.
    split_industry; cbn [mul add]; apply lt_Fin; qc2q; lra.
Qed.

Lemma calculateGrowthPotential_uncapped_witness :
  le (ofZ 900000 * dec 69 100) (calculateGrowthPotential initialValues) = true
  /\ gt (calculateGrowthPotential initialValues) (ofZ 100) = true.
Proof.
  destruct (calculateGrowthPotential_uncapped initialValues 900000) as (L & G).
  - reflexivity.
  - split; [exact L | apply G; lia].
Defined.

End ScoreCollapse.

(** ** The valuation ratios *)

Section Valuation.

Local Open Scope js_scope.

(** X12: when the asking price and the earnings are positive amounts up to
    [MAX_SAFE_INTEGER], the payback period is the EBITDA multiple, the price
    to earnings ratio (earnings after 30% tax) is above the EBITDA multiple,
    and the return on investment in percent times the EBITDA multiple is 100
    to within 0.1. *)
Theorem valuation_relations values (a e : Z) :
  parseInt (replaceNonDigits (FormValues.askingPrice values)) = Some a ->
  parseInt (replaceNonDigits (FormValues.ebitda values)) = Some e ->
  (0 < a <= MAX_SAFE_INTEGER)%Z -> (0 < e <= MAX_SAFE_INTEGER)%Z ->
  let m := calculateMetrics values in
  CalculationResults.paybackPeriod m = CalculationResults.ebitdaMultiple m
  /\ lt (CalculationResults.ebitdaMultiple m) (CalculationResults.priceToEarnings m)
     = true
  /\ le (dec 999 10)
        (CalculationResults.returnOnInvestment m * CalculationResults.ebitdaMultiple m)
     = true
  /\ le (CalculationResults.returnOnInvestment m * CalculationResults.ebitdaMultiple m)
        (dec 1001 10)
     = true.
Proof.
  intros Ha He [HA _] [HE _]. cbv zeta. unfold calculateMetrics. cbv zeta.
  cbn [CalculationResults.returnOnInvestment CalculationResults.ebitdaMultiple
       CalculationResults.priceToEarnings CalculationResults.paybackPeriod].
  split; [reflexivity|].
  rewrite Ha, He. cbn [num]. unfold ofZ, dec.
  pose proof (inject_Z_lt _ _ HA) as A. pose proof (inject_Z_lt _ _ HE) as E.
  assert (Na : Q2Qc (inject_Z a) <> Q2Qc 0) by (intros N; qc2q; lra).
  assert (Ne : Q2Qc (inject_Z e) <> Q2Qc 0) by (intros N; qc2q; lra).
  cbn [mul]. rewrite !div_Fin_nonzero; try assumption.
  2:{ intros N. qc2q. lra. }
  cbn [mul].
  assert (I : (0 < / (e # 1))%Q) by (apply Qinv_lt_0_compat; exact E).
  assert (K : (/ ((e # 1) * (7 # 10)) == / (e # 1) * (10 # 7))%Q).
  { rewrite Qinv_mult_distr. reflexivity. }
  assert (R : ((e # 1) * / (a # 1) * 100 * ((a # 1) * / (e # 1)) == 100)%Q)
    by (field; lra).
  split; [|split]; [apply lt_Fin | apply le_Fin | apply le_Fin]; qc2q.
  - rewrite K. nra.
  - rewrite R. lra.
  - rewrite R. lra.
Qed.

Lemma valuation_relations_witness :
  let m := calculateMetrics initialValues in
  CalculationResults.paybackPeriod m = CalculationResults.ebitdaMultiple m
  /\ lt (CalculationResults.ebitdaMultiple m) (CalculationResults.priceToEarnings m)
     = true.
Proof.
  cbv zeta.
  destruct (valuation_relations initialValues 2500000 450000) as (P & L & _);
    try reflexivity; try (unfold MAX_SAFE_INTEGER; lia).
  split; [exact P | exact L].
Defined.
End Valuation.

(** ** The findings and the recommendation of the evaluator *)

Lemma tuple4_eq (a b c d a' b' c' d' : nat) :
  a = a' -> b = b' -> c = c' -> d = d' -> (a, b, c, d) = (a', b', c', d').
Proof. congruence. Qed.

Ltac tally_shape :=
  intros;
  repeat match goal with
  | |- context [if ?c then _ else _] => destruct c
  end;
  unfold tally, tallyPlus, Lists.pushStrength, Lists.pushWeakness,
    Lists.pushOpportunity, Lists.pushThreat;
  cbn [Lists.strengths Lists.weaknesses Lists.opportunities Lists.threats
       Nat.b2n negb andb];
  rewrite ?length_app; cbn [List.length];
  apply tuple4_eq; lia.

Section Findings.

Import CalculationResults.
Local Open Scope js_scope.
Local Open Scope string_scope.

Lemma tuple4_inv (a b c d a' b' c' d' : nat) :
  (a, b, c, d) = (a', b', c', d') -> a = a' /\ b = b' /\ c = c' /\ d = d'.
Proof. intros H. inversion H. auto. Qed.

(** What each rule of [analyzeDeal] adds to the sizes of the four lists. *)
Lemma tally_ratio_rule (c1 c2 : bool) s w l :
  tally (if c1 then Lists.pushStrength s l
         else if c2 then Lists.pushWeakness w l else l)
  = tallyPlus (tally l) (Nat.b2n c1, Nat.b2n (negb c1 && c2), 0, 0)%nat.
Proof. tally_shape. Qed.

Lemma tally_pushWeakness w l :
  tally (Lists.pushWeakness w l) = tallyPlus (tally l) (0, 1, 0, 0)%nat.
Proof. tally_shape. Qed.

Lemma tally_share_rule (c : bool) s w o l :
  tally (if c then Lists.pushStrength s l
         else Lists.pushOpportunity o (Lists.pushWeakness w l))
  = tallyPlus (tally l) (Nat.b2n c, Nat.b2n (negb c), Nat.b2n (negb c), 0)%nat.
Proof. tally_shape. Qed.

Lemma tally_concentration_rule (c : bool) s w t l :
  tally (if c then Lists.pushWeakness w (Lists.pushThreat t l)
         else Lists.pushStrength s l)
  = tallyPlus (tally l) (Nat.b2n (negb c), Nat.b2n c, 0, Nat.b2n c)%nat.
Proof. tally_shape. Qed.

Lemma tally_industryFindings m l :
  tally (industryFindings m l)
  = tallyPlus (tally l)
      (0, Nat.b2n (strictEquals (industry m) "services"),
       2 * Nat.b2n (strictEquals (industry m) "services"),
       2 * Nat.b2n (strictEquals (industry m) "services"))%nat.
Proof. unfold industryFindings. cbv zeta. tally_shape. Qed.

Lemma findings_tally m :
  let valued := le (ebitdaMultiple m) (ofZ 4) in
  let premium := negb valued && ge (ebitdaMultiple m) (ofZ 7) in
  let covered := ge (debtServiceCoverageRatio m) (dec 15 10) in
  let tight := negb covered && lt (debtServiceCoverageRatio m) (dec 125 100) in
  let recurring := ge (recurringRevenuePercent m) (ofZ 30) in
  let concentrated := gt (customerConcentration m) (ofZ 20) in
  let established := ge (num (yearsOperating m)) (ofZ 10) in
  let services := strictEquals (industry m) "services" in
  tally (industryFindings m (generalFindings m))
  = (Nat.b2n valued + Nat.b2n covered + Nat.b2n recurring
     + Nat.b2n (negb concentrated) + Nat.b2n established,
     Nat.b2n premium + 2 + Nat.b2n tight + Nat.b2n (negb recurring)
     + Nat.b2n concentrated + Nat.b2n (negb established) + Nat.b2n services,
     Nat.b2n (negb recurring) + Nat.b2n (negb established) + 2 * Nat.b2n services,
     Nat.b2n concentrated + 2 * Nat.b2n services)%nat.
Proof.
  cbv zeta. rewrite tally_industryFindings.
  unfold generalFindings. cbv zeta.
  fold (recurringRevenuePercent m). fold (customerConcentration m).
  fold (yearsOperating m).
  rewrite tally_share_rule, tally_concentration_rule, tally_share_rule,
    tally_ratio_rule, !tally_pushWeakness, tally_ratio_rule.
  unfold tallyPlus, tally.
  cbn [Lists.empty Lists.strengths Lists.weaknesses Lists.opportunities
       Lists.threats List.length].
  apply tuple4_eq; lia.
Qed.

Lemma analysis_tally m :
  tally (industryFindings m (generalFindings m))
  = (List.length (DealAnalysis.strengths (analyzeDeal m)),
     List.length (DealAnalysis.weaknesses (analyzeDeal m)),
     List.length (DealAnalysis.opportunities (analyzeDeal m)),
     List.length (DealAnalysis.threats (analyzeDeal m))).
Proof.
  destruct (analyzeDeal_lists m) as (-> & -> & -> & ->). reflexivity.
Qed.

(** X14: every analysis holds at most five strengths, between two and eight
    weaknesses, at most four opportunities and at most three threats; each of
    the five rule checks files at most one strength or weakness, so strengths
    and weaknesses together number between five and eight. *)
Theorem findings_bounds m :
  let a := analyzeDeal m in
  (List.length (DealAnalysis.strengths a) <= 5
   /\ 2 <= List.length (DealAnalysis.weaknesses a) <= 8
   /\ List.length (DealAnalysis.opportunities a) <= 4
   /\ List.length (DealAnalysis.threats a) <= 3
   /\ 5 <= List.length (DealAnalysis.strengths a)
           + List.length (DealAnalysis.weaknesses a) <= 8)%nat.
Proof.
  cbv zeta. pose proof (findings_tally m) as T. cbv zeta in T.
  rewrite analysis_tally in T. apply tuple4_inv in T.
  destruct T as (-> & -> & -> & ->).
  destruct (le (ebitdaMultiple m) (ofZ 4)), (ge (ebitdaMultiple m) (ofZ 7)),
    (ge (debtServiceCoverageRatio m) (dec 15 10)),
    (lt (debtServiceCoverageRatio m) (dec 125 100)),
    (ge (recurringRevenuePercent m) (ofZ 30)),
    (gt (customerConcentration m) (ofZ 20)),
    (ge (num (yearsOperating m)) (ofZ 10)),
    (strictEquals (industry m) "services");
    cbn [Nat.b2n negb andb]; lia.
Qed.

End Findings.

Ltac flag_cases m :=
  destruct (ge (CalculationResults.debtServiceCoverageRatio m) (ofZ 2)),
    (ge (CalculationResults.debtServiceCoverageRatio m) (dec 15 10)),
    (lt (CalculationResults.debtServiceCoverageRatio m) (dec 125 100)),
    (le (CalculationResults.ebitdaMultiple m) (ofZ 4)),
    (ge (CalculationResults.ebitdaMultiple m) (ofZ 7)),
    (ge (recurringRevenuePercent m) (ofZ 30)),
    (gt (customerConcentration m) (ofZ 20)),
    (ge (num (yearsOperating m)) (ofZ 10)),
    (strictEquals (CalculationResults.industry m) "services");
  cbn [Nat.b2n negb andb].

Section ScoreOfAnalysis.

Import CalculationResults.
Local Open Scope js_scope.
Local Open Scope string_scope.

Lemma ofZ_add a b : ofZ a + ofZ b = ofZ (a + b).
Proof.
  unfold ofZ. cbn [add]. apply (f_equal Fin), Qc_is_canon.
  unfold Qcplus. cbn [this Q2Qc].
  rewrite !Qred_correct, inject_Z_plus. reflexivity.
Qed.

Lemma ofZ_sub a b : ofZ a - ofZ b = ofZ (a - b).
Proof.
  unfold ofZ. cbn [sub add neg]. apply (f_equal Fin), Qc_is_canon.
  unfold Qcplus, Qcopp. cbn [this Q2Qc]. rewrite !Qred_correct.
  unfold Z.sub. rewrite inject_Z_plus, inject_Z_opp. reflexivity.
Qed.

Lemma le_ofZ a b : le (ofZ a) (ofZ b) = true <-> (a <= b)%Z.
Proof.
  unfold ofZ. rewrite le_Fin. unfold Qcle. cbn [this Q2Qc].
  rewrite !Qred_inject_Z, <- Zle_Qle. reflexivity.
Qed.

Lemma lt_ofZ a b : lt (ofZ a) (ofZ b) = true <-> (a < b)%Z.
Proof.
  unfold ofZ. rewrite lt_Fin. unfold Qclt. cbn [this Q2Qc].
  rewrite !Qred_inject_Z, <- Zlt_Qlt. reflexivity.
Qed.

Lemma ge_ofZ_bool a b : ge (ofZ a) (ofZ b) = (b <=? a)%Z.
Proof.
  unfold ge. destruct (Z.leb_spec b a) as [H|H].
  - apply le_ofZ, H.
  - apply not_true_is_false. rewrite le_ofZ. lia.
Qed.

Lemma clamp_ofZ z : (0 <= z <= 100)%Z -> clamp (ofZ z) = ofZ z.
Proof.
  intros [H0 H1]. unfold clamp, gt.
  destruct (lt (ofZ z) (ofZ 0)) eqn:E0.
  { apply lt_ofZ in E0. lia. }
  destruct (lt (ofZ 100) (ofZ z)) eqn:E1.
  { apply lt_ofZ in E1. lia. }
  reflexivity.
Qed.

Lemma ratioAdjustment_bounds d e : (-20 <= ratioAdjustment d e <= 20)%Z.
Proof.
  unfold ratioAdjustment.
  destruct (ge d (ofZ 2)), (ge d (dec 15 10)), (lt d (dec 125 100)),
    (le e (ofZ 4)), (ge e (ofZ 7)); lia.
Qed.

Lemma b2n_le_1 (b : bool) : (Z.of_nat (Nat.b2n b) <= 1)%Z.
Proof. destruct b; cbn; lia. Qed.

(** The score before the clamp, from the sizes of the lists. *)
Lemma analysisScore_unclamped m :
  analysisScore m = clamp (ofZ (analysisPoints m)).
Proof.
  pose proof (findings_tally m) as T. cbv zeta in T. unfold tally in T.
  apply tuple4_inv in T. destruct T as (TS & TW & _ & _).
  unfold analysisScore, analysisPoints. cbv zeta.
  destruct (analyzeDeal_lists m) as (-> & -> & _).
  rewrite calculateDealScore_base, TS, TW. unfold ofNat.
  rewrite !ofZ_mul, ofZ_add, ofZ_sub. reflexivity.
Qed.

Lemma analysisPoints_range m : (26 <= analysisPoints m <= 99)%Z.
Proof.
  unfold analysisPoints. cbv zeta.
  pose proof (ratioAdjustment_bounds (debtServiceCoverageRatio m) (ebitdaMultiple m)).
  rewrite !Nat2Z.inj_add.
  repeat match goal with
  | |- context [Z.of_nat (Nat.b2n ?b)] =>
      let x := fresh "n" in
      pose proof (b2n_le_1 b); pose proof (Nat2Z.is_nonneg (Nat.b2n b));
      set (x := Z.of_nat (Nat.b2n b)) in *; clearbody x
  end.
  cbn [Z.of_nat Pos.of_succ_nat Pos.succ]. lia.
Qed.

Lemma analysisScore_integer m : analysisScore m = ofZ (analysisPoints m).
Proof.
  rewrite analysisScore_unclamped. apply clamp_ofZ.
  pose proof (analysisPoints_range m). lia.
Qed.

Lemma recommendation_of_points m :
  DealAnalysis.recommendation (analyzeDeal m) =
  if (85 <=? analysisPoints m)%Z then StrongBuy
  else if (70 <=? analysisPoints m)%Z then Buy
  else if (50 <=? analysisPoints m)%Z then Neutral
  else if (30 <=? analysisPoints m)%Z then Caution
  else Pass.
Proof.
  rewrite analyzeDeal_recommendation. fold (analysisScore m).
  rewrite analysisScore_integer.
  unfold recommendationSpec. rewrite !ge_ofZ_bool. reflexivity.
Qed.

Lemma lt_125_flags x :
  lt x (dec 125 100) = true -> ge x (dec 15 10) = false /\ ge x (ofZ 2) = false.
Proof.
  intros H. destruct (ge x (dec 15 10)) eqn:E.
  { rewrite (ge_15_not_lt_125 _ E) in H. discriminate. }
  split; [reflexivity|]. destruct (ge x (ofZ 2)) eqn:E2; [|reflexivity].
  rewrite (ge_two_ge_15 _ E2) in E. discriminate.
Qed.

Lemma ge_seven_flags x : ge x (ofZ 7) = true -> le x (ofZ 4) = false.
Proof.
  intros H. destruct (le x (ofZ 4)) eqn:E; [|reflexivity].
  rewrite (le_four_not_ge_seven _ E) in H. discriminate.
Qed.

(** X15: the score that [analyzeDeal] passes to the tiers is always an
    integer between 26 and 99: the clamp of [calculateDealScore] to [0,100]
    never acts there, and a score of 100 is out of reach. *)
Theorem analysisScore_range m :
  exists z : Z, analysisScore m = ofZ z /\ (26 <= z <= 99)%Z.
Proof.
  exists (analysisPoints m). split.
  - rewrite analysisScore_unclamped. apply clamp_ofZ.
    pose proof (analysisPoints_range m). lia.
  - unfold analysisPoints, ratioAdjustment. cbv zeta. flag_cases m; lia.
Qed.

(** X16: a deal whose debt service coverage ratio is below 1.25, or whose
    EBITDA multiple is 7 or more, is never rated Strong Buy, whatever its
    other findings are. *)
Theorem strong_buy_excluded m :
  lt (debtServiceCoverageRatio m) (dec 125 100) = true
  \/ ge (ebitdaMultiple m) (ofZ 7) = true ->
  DealAnalysis.recommendation (analyzeDeal m) <> StrongBuy.
Proof.
  intros H. rewrite recommendation_of_points.
  assert (B : (analysisPoints m < 85)%Z).
  { unfold analysisPoints, ratioAdjustment. cbv zeta. destruct H as [H|H].
    - destruct (lt_125_flags _ H) as (E1 & E2). rewrite H, E1, E2.
      destruct (le (ebitdaMultiple m) (ofZ 4)), (ge (ebitdaMultiple m) (ofZ 7)),
        (ge (recurringRevenuePercent m) (ofZ 30)),
        (gt (customerConcentration m) (ofZ 20)),
        (ge (num (yearsOperating m)) (ofZ 10)),
        (strictEquals (industry m) "services");
        cbn [Nat.b2n negb andb]; lia.
    - rewrite H, (ge_seven_flags _ H).
      destruct (ge (debtServiceCoverageRatio m) (ofZ 2)),
        (ge (debtServiceCoverageRatio m) (dec 15 10)),
        (lt (debtServiceCoverageRatio m) (dec 125 100)),
        (ge (recurringRevenuePercent m) (ofZ 30)),
        (gt (customerConcentration m) (ofZ 20)),
        (ge (num (yearsOperating m)) (ofZ 10)),
        (strictEquals (industry m) "services");
        cbn [Nat.b2n negb andb]; lia. }
  destruct (Z.leb_spec 85 (analysisPoints m)); [lia|].
  destruct (70 <=? analysisPoints m)%Z; [discriminate|].
  destruct (50 <=? analysisPoints m)%Z; [discriminate|].
  destruct (30 <=? analysisPoints m)%Z; discriminate.
Qed.

Lemma strong_buy_excluded_witness :
  DealAnalysis.recommendation (analyzeDeal (calculateMetrics initialValues))
  <> StrongBuy.
Proof.
  apply (strong_buy_excluded (calculateMetrics initialValues)).
  left. vm_compute. reflexivity.
Defined.

(** X17: the rating Pass is given only to a deal without a single strength,
    whose debt service coverage ratio is below 1.25 and whose EBITDA multiple
    is 7 or more. *)
Theorem pass_only_without_strengths m :
  DealAnalysis.recommendation (analyzeDeal m) = Pass ->
  DealAnalysis.strengths (analyzeDeal m) = []
  /\ lt (debtServiceCoverageRatio m) (dec 125 100) = true
  /\ ge (ebitdaMultiple m) (ofZ 7) = true.
Proof.
  rewrite recommendation_of_points. intros H.
  assert (B : (analysisPoints m < 30)%Z).
  { destruct (85 <=? analysisPoints m)%Z; [discriminate|].
    destruct (70 <=? analysisPoints m)%Z; [discriminate|].
    destruct (50 <=? analysisPoints m)%Z; [discriminate|].
    destruct (Z.leb_spec 30 (analysisPoints m)); [discriminate | assumption]. }
  clear H.
  pose proof (findings_tally m) as T. cbv zeta in T.
  rewrite analysis_tally in T. apply tuple4_inv in T. destruct T as (TS & _).
  rewrite <- length_zero_iff_nil, TS. clear TS.
  revert B. unfold analysisPoints, ratioAdjustment. cbv zeta.
  flag_cases m; intros B; repeat split; try reflexivity; lia.
Qed.

Lemma pass_only_without_strengths_witness :
  DealAnalysis.strengths (analyzeDeal (calculateMetrics distressed)) = []
  /\ lt (debtServiceCoverageRatio (calculateMetrics distressed)) (dec 125 100) = true
  /\ ge (ebitdaMultiple (calculateMetrics distressed)) (ofZ 7) = true.
Proof.
  apply (pass_only_without_strengths (calculateMetrics distressed)).
  vm_compute. reflexivity.
Defined.

End ScoreOfAnalysis.

(** ** Findings that are always, or in an edge case, present *)

Section Membership.

Import Lists.
Local Open Scope js_scope.
Local Open Scope string_scope.

Variable x : string.

(** The rules only append: a finding already in a list stays in it. *)
Lemma weakness_kept_ratio (c1 c2 : bool) s w l :
  In x (weaknesses l) ->
  In x (weaknesses (if c1 then pushStrength s l
                    else if c2 then pushWeakness w l else l)).
Proof. destruct c1, c2; cbn; rewrite ?in_app_iff; auto. Qed.

Lemma weakness_kept_push w l :
  In x (weaknesses l) -> In x (weaknesses (pushWeakness w l)).
Proof. cbn. rewrite in_app_iff. auto. Qed.

Lemma weakness_kept_share (c : bool) s w o l :
  In x (weaknesses l) ->
  In x (weaknesses (if c then pushStrength s l
                    else pushOpportunity o (pushWeakness w l))).
Proof. destruct c; cbn; rewrite ?in_app_iff; auto. Qed.

Lemma weakness_kept_concentration (c : bool) s w t l :
  In x (weaknesses l) ->
  In x (weaknesses (if c then pushWeakness w (pushThreat t l)
                    else pushStrength s l)).
Proof. destruct c; cbn; rewrite ?in_app_iff; auto. Qed.

Lemma weakness_kept_industry m l :
  In x (weaknesses l) -> In x (weaknesses (industryFindings m l)).
Proof.
  unfold industryFindings.
  destruct (strictEquals _ _); cbn; rewrite ?in_app_iff; auto.
Qed.

Lemma opportunity_kept_share (c : bool) s w o l :
  In x (opportunities l) ->
  In x (opportunities (if c then pushStrength s l
                       else pushOpportunity o (pushWeakness w l))).
Proof. destruct c; cbn; rewrite ?in_app_iff; auto. Qed.

Lemma opportunity_kept_concentration (c : bool) s w t l :
  In x (opportunities l) ->
  In x (opportunities (if c then pushWeakness w (pushThreat t l)
                       else pushStrength s l)).
Proof. destruct c; cbn; auto. Qed.

Lemma opportunity_kept_industry m l :
  In x (opportunities l) -> In x (opportunities (industryFindings m l)).
Proof.
  unfold industryFindings.
  destruct (strictEquals _ _); cbn; rewrite ?in_app_iff; auto.
Qed.

End Membership.

Ltac weakness_kept :=
  first [ apply weakness_kept_share | apply weakness_kept_concentration
        | apply weakness_kept_ratio | apply weakness_kept_industry ].

Section EdgeFindings.

Import Lists.
Local Open Scope js_scope.
Local Open Scope string_scope.

(** X18: every analysis, whatever the metrics, lists the two standing
    weaknesses "Technology systems could be modernized" and "Marketing
    strategy needs enhancement". *)
Theorem standing_weaknesses m :
  In "Technology systems could be modernized"
     (DealAnalysis.weaknesses (analyzeDeal m))
  /\ In "Marketing strategy needs enhancement"
        (DealAnalysis.weaknesses (analyzeDeal m)).
Proof.
  destruct (analyzeDeal_lists m) as (_ & -> & _ & _).
  unfold generalFindings. cbv zeta. split.
  - do 5 weakness_kept. apply weakness_kept_push.
    cbn [weaknesses pushWeakness]. apply in_or_app. right. left. reflexivity.
  - do 5 weakness_kept.
    cbn [weaknesses pushWeakness]. apply in_or_app. right. left. reflexivity.
Qed.

(** X13: the division by the earnings is not guarded: with earnings of 0 and
    a positive asking price the EBITDA multiple, the payback period and the
    price to earnings ratio are +Infinity and the return on investment is 0;
    the evaluator then files the deal under "Premium valuation". *)
Theorem zero_ebitda values (a : Z) :
  parseInt (replaceNonDigits (FormValues.askingPrice values)) = Some a ->
  parseInt (replaceNonDigits (FormValues.ebitda values)) = Some 0%Z ->
  (0 < a)%Z ->
  let m := calculateMetrics values in
  CalculationResults.ebitdaMultiple m = PInf
  /\ CalculationResults.paybackPeriod m = PInf
  /\ CalculationResults.priceToEarnings m = PInf
  /\ CalculationResults.returnOnInvestment m = ofZ 0
  /\ In "Premium valuation (EBITDA multiple > 7x)"
        (DealAnalysis.weaknesses (analyzeDeal m)).
Proof.
  intros Ha He HA. cbv zeta.
  assert (A : (Q2Qc (inject_Z a) ?= Q2Qc 0)%Qc = Gt).
  { apply Qcgt_alt. unfold Qclt. cbn [this Q2Qc]. rewrite !Qred_inject_Z.
    change (Qred 0) with (inject_Z 0). rewrite <- Zlt_Qlt. exact HA. }
  assert (M : CalculationResults.ebitdaMultiple (calculateMetrics values) = PInf).
  { unfold calculateMetrics. cbv zeta. cbn [CalculationResults.ebitdaMultiple].
    rewrite Ha, He. cbn [num]. unfold ofZ. cbn [div].
    change (Q2Qc (inject_Z 0) ?= Q2Qc 0)%Qc with Eq. cbv iota.
    unfold signedInf. rewrite A. reflexivity. }
  split; [exact M|]. split; [exact M|]. split; [|split].
  - unfold calculateMetrics. cbv zeta. cbn [CalculationResults.priceToEarnings].
    rewrite Ha, He. cbn [num]. unfold ofZ, dec. cbn [mul div].
    change (Q2Qc (inject_Z 0) * Q2Qc (7 # 10) ?= Q2Qc 0)%Qc with Eq. cbv iota.
    unfold signedInf. rewrite A. reflexivity.
  - unfold calculateMetrics. cbv zeta. cbn [CalculationResults.returnOnInvestment].
    rewrite Ha, He. cbn [num]. unfold ofZ. cbn [div]. rewrite A. cbn [mul].
    apply (f_equal Fin). pose proof (inject_Z_lt _ _ HA) as A'. qc2q. field. lra.
  - destruct (analyzeDeal_lists (calculateMetrics values)) as (_ & -> & _ & _).
    unfold generalFindings. cbv zeta. do 5 weakness_kept.
    do 2 apply weakness_kept_push. rewrite M.
    cbn. left. reflexivity.
Qed.

Lemma zero_ebitda_witness :
  CalculationResults.ebitdaMultiple (calculateMetrics noEarnings) = PInf
  /\ In "Premium valuation (EBITDA multiple > 7x)"
        (DealAnalysis.weaknesses (analyzeDeal (calculateMetrics noEarnings))).
Proof.
  pose proof (zero_ebitda noEarnings 500000 eq_refl eq_refl eq_refl)
    as (H1 & _ & _ & _ & H5).
  split; [exact H1 | exact H5].
Defined.

(** A share of nothing is never 30% or more. *)
Lemma zero_share_low (i : integer) :
  ge (ofZ 0 / num i * ofZ 100) (ofZ 30) = false.
Proof.
  destruct i as [t|]; [|reflexivity]. cbn [num]. unfold ofZ at 1 2. cbn [div].
  destruct (Qccompare_spec (Q2Qc (inject_Z t)) (Q2Qc 0)) as [E|L|G].
  - reflexivity.
  - unfold ge, ofZ. cbn [mul]. apply le_Fin_false. qc2q. lra.
  - unfold ge, ofZ. cbn [mul]. apply le_Fin_false. qc2q. lra.
Qed.

(** X19: a recurring revenue field without a digit is read in two ways: the
    engine parses it to NaN, which makes the risk score, the growth
    potential, the market position score and the competitive threat NaN,
    while the evaluator falls back on 0 and reports the opportunity to
    increase service contracts. *)
Theorem blank_recurring_revenue values :
  replaceNonDigits (FormValues.recurringRevenue values) = "" ->
  let m := calculateMetrics values in
  CalculationResults.riskScore m = NaN
  /\ CalculationResults.growthPotential m = NaN
  /\ CalculationResults.marketPositionScore m = NaN
  /\ CalculationResults.competitiveThreat m = NaN
  /\ In "Opportunity to increase service contracts"
        (DealAnalysis.opportunities (analyzeDeal m)).
Proof.
  intros H. cbv zeta.
  assert (S : calculateRiskScore values = NaN
              /\ calculateGrowthPotential values = NaN
              /\ calculateMarketScore values = NaN
              /\ calculateCompetitiveThreat values = NaN).
  { unfold calculateRiskScore, calculateGrowthPotential, calculateMarketScore,
      calculateCompetitiveThreat. cbv zeta. rewrite H.
    change (num (parseInt "")) with NaN. cbn [mul].
    rewrite !sub_NaN_r, !add_NaN_r. cbn [sub add neg Math.min Math.max].
    repeat split; reflexivity. }
  destruct S as (S1 & S2 & S3 & S4).
  split; [exact S1|]. split; [exact S2|]. split; [exact S3|]. split; [exact S4|].
  destruct (analyzeDeal_lists (calculateMetrics values)) as (_ & _ & -> & _).
  apply opportunity_kept_industry. unfold generalFindings. cbv zeta.
  apply opportunity_kept_share, opportunity_kept_concentration.
  change (CalculationResults.recurringRevenue (calculateMetrics values))
    with (Some (FormValues.recurringRevenue values)).
  cbn [option_map]. rewrite H. cbn [orDefault].
  change (num (parseInt "0")) with (ofZ 0).
  rewrite zero_share_low.
  cbn [opportunities pushOpportunity]. apply in_or_app. right. left. reflexivity.
Qed.

Lemma blank_recurring_revenue_witness :
  CalculationResults.riskScore (calculateMetrics blankRecurring) = NaN
  /\ In "Opportunity to increase service contracts"
        (DealAnalysis.opportunities (analyzeDeal (calculateMetrics blankRecurring))).
Proof.
  pose proof (blank_recurring_revenue blankRecurring eq_refl)
    as (H1 & _ & _ & _ & H5).
  split; [exact H1 | exact H5].
Defined.

End EdgeFindings.

(** ** The shape of the projected series *)

Section ProjectionShape.

Local Open Scope js_scope.

Lemma round_monotone (p q : Qc) :
  (p <= q)%Qc -> le (Math.round (Fin p)) (Math.round (Fin q)) = true.
Proof.
  intros H. cbn [Math.round]. apply le_ofZ. apply Qfloor_resp_le.
  unfold Qcle, Qcplus in *. cbn [this Q2Qc]. rewrite !Qred_correct. lra.
Qed.

(** X20: when the amounts are at most [MAX_SAFE_INTEGER], the down payment
    and the seller note are 0 to 100 percent and the rate and the term are
    1 to 100, the projected free cash flow never decreases from one projected
    year to the next: the earnings, which a currency field cannot make
    negative, grow every year while the debt service and the owner salary
    stay the same.  Within these bounds no double of the computation is NaN
    or infinite, and rounding, which is monotone, keeps the order. *)
Theorem projected_cash_flows_grow values (a d s r y e o : Z) :
  parseInt (replaceNonDigits (FormValues.askingPrice values)) = Some a ->
  parseInt (FormValues.downPayment values) = Some d ->
  parseInt (FormValues.sellerNote values) = Some s ->
  parseInt (FormValues.interestRate values) = Some r ->
  parseInt (FormValues.loanTerm values) = Some y ->
  parseInt (replaceNonDigits (FormValues.ebitda values)) = Some e ->
  parseInt (replaceNonDigits (FormValues.ownerSalary values)) = Some o ->
  (a <= MAX_SAFE_INTEGER)%Z -> (e <= MAX_SAFE_INTEGER)%Z ->
  (o <= MAX_SAFE_INTEGER)%Z ->
  (0 <= d <= 100)%Z -> (0 <= s <= 100)%Z ->
  (1 <= r <= 100)%Z -> (1 <= y <= 100)%Z ->
  forall year, (1 <= year <= 3)%nat ->
    le (nth year (calculateProjectedCashFlows values) NaN)
       (nth (S year) (calculateProjectedCashFlows values) NaN) = true.
Proof.
  intros Ha Hd Hs Hr Hy He Ho _ _ _ _ _ Rrange Yrange year Hyear.
  assert (Rpos : (0 < r)%Z) by lia. assert (Ypos : (0 < y)%Z) by lia.
  pose proof (inject_Z_le _ _ (currency_nonneg _ _ He)) as E.
  unfold calculateProjectedCashFlows. cbv zeta. rewrite projection_loop. cbv zeta.
  rewrite Ha, Hd, Hs, Hr, Hy, He, Ho. cbn [num snd app].
  assert (Hp : forall p, ofZ p / ofZ 100
                         = Fin (Q2Qc (inject_Z p) / Q2Qc (inject_Z 100))%Qc).
  { intros p. apply div_Fin_nonzero. intros N. discriminate N. }
  rewrite !Hp.
  set (dp := ofZ a * Fin _). set (sn := ofZ a * Fin _).
  assert (Hprin : exists b, ofZ a - dp - sn + sn = Fin b)
    by (eexists; reflexivity).
  destruct Hprin as (b & ->).
  assert (Rq : (Q2Qc 0 < Q2Qc (inject_Z r))%Qc).
  { unfold Qclt. cbn [this Q2Qc]. rewrite !Qred_inject_Z.
    rewrite Zlt_Qlt in Rpos. exact Rpos. }
  destruct (annuity_factor (Q2Qc (inject_Z r)) y Rq Ypos) as (k & Hk).
  change (ofZ r) with (Fin (Q2Qc (inject_Z r))). rewrite Hk.
  unfold ofZ, dec. cbn [mul add sub neg].
  destruct year as [|[|[|[|year]]]]; try lia; cbn [nth];
    apply round_monotone; qc2q; nra.
Qed.

Lemma projected_cash_flows_grow_witness :
  le (nth 1 (calculateProjectedCashFlows initialValues) NaN)
     (nth 2 (calculateProjectedCashFlows initialValues) NaN) = true.
Proof.
  apply (projected_cash_flows_grow initialValues
           2500000 5 5 10 10 450000 150000);
    try reflexivity; unfold MAX_SAFE_INTEGER; lia.
Defined.

End ProjectionShape.
